(** * movis: the Composition class (src/movis/layer/composition.py)

    A shallow embedding of [Composition] and of the Python runtime it
    relies on: exceptions, a mutable object store for the [Component]
    objects the composition shares with its callers, the weak name index,
    the frame cache, and IEEE binary64 times. *)

From Stdlib Require Import ZArith Floats Bool.
From stdpp Require Import gmap strings list fin_maps pretty.

Open Scope Z_scope.

(** ** Python exceptions and the state-and-exception monad *)

(** The exceptions composition.py can raise.  [Stuck] is not a Python
    exception: it marks a store that misses an object a list still points
    to, which Python's reference counting rules out. *)
Inductive Exn :=
  | KeyError (msg : string)
  | ValueError (msg : string)
  | AssertionError (msg : string)
  | StopIteration
  | ZeroDivisionError
  | IndexError (msg : string)
  | MemoryError
  | Stuck.

Inductive Outcome (A : Type) :=
  | Returned (a : A)
  | Raised (e : Exn).
Arguments Returned {A} a.
Arguments Raised {A} e.

(** A method body: it reads and writes the state and either returns or
    raises; the writes made before a raise stay. *)
Definition M (St A : Type) : Type := St → Outcome A * St.

#[global] Instance M_ret {St} : MRet (M St) := λ A a s, (Returned a, s).
#[global] Instance M_bind {St} : MBind (M St) := λ A B f m s,
  match m s with
  | (Returned a, s') => f a s'
  | (Raised e, s') => (Raised e, s')
  end.

Definition raise {St A} (e : Exn) : M St A := λ s, (Raised e, s).
Definition gets {St A} (f : St → A) : M St A := λ s, (Returned (f s), s).
Definition modify {St} (f : St → St) : M St unit := λ s, (Returned tt, f s).
Definition lift {St A} (o : Outcome A) : M St A := λ s, (o, s).

(** [assert cond, msg] *)
Definition py_assert {St} (cond : bool) (msg : string) : M St unit :=
  if cond then mret tt else raise (AssertionError msg).

(** [try: body finally: handler].  The handler always runs; the outcome of
    the body is kept unless the handler itself raises. *)
Definition try_finally {St A} (body : M St A) (handler : M St unit) : M St A :=
  λ s, let '(r, s1) := body s in
       match handler s1 with
       | (Returned _, s2) => (r, s2)
       | (Raised e, s2) => (Raised e, s2)
       end.

(** Python's [a // b] on ints: floor division, as [Z.div]; a zero divisor
    raises. *)
Definition floordiv (a b : Z) : Outcome Z :=
  if decide (b = 0) then Raised ZeroDivisionError else Returned (a `div` b).

(** ** Times

    Python floats are IEEE binary64, Rocq's primitive floats: [<?], [<=?]
    and [-] below are the float operations, NaN included. *)

(** Two floats are ordered when neither is NaN. *)
Definition ordered (x y : float) : bool :=
  negb (is_nan x) && negb (is_nan y).

(** ** Collaborators of composition.py that are not part of it *)

(** The classes composition.py imports from the rest of the package
    ([..layer.Layer], [..transform.Transform], [..imgproc.BlendingMode],
    [..enum.Direction]) and the values it builds from them, taken as
    parameters. *)
Class Collaborators := {
  Layer : Type;
  Transform : Type;
  BlendingMode : Type;
  Direction : Type;
  (** what [Component.get_key] returns for one component *)
  SubKey : Type;
  SubKey_eq_dec :: EqDecision SubKey;
  SubKey_countable :: Countable SubKey;
  (** [layer.duration] *)
  Layer_duration : Layer → float;
  (** [Transform(position=(size[0] / 2, size[1] / 2))] *)
  Transform_centered : Z * Z → Transform;
  (** [BlendingMode.NORMAL] and [Direction.CENTER] *)
  BlendingMode_NORMAL : BlendingMode;
  Direction_CENTER : Direction;
}.

(** Object identities: a [Component] is a mutable object that the layer
    list, the name index, an alpha-matte link and the caller may all
    refer to. *)
Abbreviation loc := nat.

(** [np.ndarray] with [dtype=uint8]: its shape and its values in row-major
    order. *)
Record ndarray := { shape : list Z; data : list Z }.

(** The machine the program runs on: whether an allocation of so many
    bytes succeeds. *)
Class Machine := { has_memory : Z → bool }.

(** numpy's index type [npy_intp], a signed 64-bit integer on a 64-bit
    build. *)
Definition NPY_MAX_INTP : Z := 2 ^ 63 - 1.
Definition NPY_MIN_INTP : Z := - 2 ^ 63.

(** [np.zeros(shape, dtype=np.uint8)].  numpy converts the dimensions to
    [npy_intp], refuses a negative one, multiplies the non-zero ones into
    the size in bytes (a [uint8] takes one) and refuses a size beyond
    [npy_intp]; the allocation itself fails with [MemoryError] when the
    machine has not the memory. *)
Definition np_zeros `{Machine} (dims : list Z) : Outcome ndarray :=
  if negb (forallb (λ d, (NPY_MIN_INTP <=? d) && (d <=? NPY_MAX_INTP)) dims)
  then Raised (ValueError "Maximum allowed dimension exceeded")
  else if negb (forallb (Z.leb 0) dims)
  then Raised (ValueError "negative dimensions are not allowed")
  else if NPY_MAX_INTP <? foldr Z.mul 1 (List.filter (λ d, negb (d =? 0)) dims)
  then Raised (ValueError "array is too big; `arr.size * arr.dtype.itemsize` is larger than the maximum possible size.")
  else if has_memory (foldr Z.mul 1 dims)
  then Returned {| shape := dims;
                   data := replicate (Z.to_nat (foldr Z.mul 1 dims)) 0 |}
  else Raised MemoryError.

(** ** Component (src/movis/layer/component.py is not among the sources) *)

Module Component.
Section Model.
Context `{Collaborators}.

(** Modelled from the spec: the [Component] class of
    movis/layer/component.py, whose source is missing.  The fields are the
    ones of the spec's data model; [alpha_matte_target] refers to another
    component object. *)
Record t := {
  name : string;
  layer : Layer;
  transform : Transform;
  offset : float;
  start_time : float;
  end_time : float;
  visible : bool;
  blending_mode : BlendingMode;
  origin_point : Direction;
  alpha_matte_target : option loc;
}.

Definition set_alpha_matte_target (m : option loc) (c : t) : t :=
  {| name := name c; layer := layer c; transform := transform c;
     offset := offset c; start_time := start_time c; end_time := end_time c;
     visible := visible c; blending_mode := blending_mode c;
     origin_point := origin_point c; alpha_matte_target := m |}.

(** Modelled from the spec: [is_active(global_time)], true iff
    [start_time <= (global_time - offset) < end_time] and [visible]. *)
Definition is_active (c : t) (global_time : float) : bool :=
  let layer_time := (global_time - offset c)%float in
  (start_time c <=? layer_time)%float && (layer_time <? end_time c)%float
  && visible c.

(** The two methods of [Component] that composition.py calls and whose
    bodies are missing, taken as parameters: [get_key(layer_time)], which
    the spec describes as the layer's content identity combined with the
    component's structural parameters, and
    [_composite(frame, time, preview_level)], the spec's
    [render_contribution].  Both may look at the alpha-matte target, hence
    the object store. *)
Class Methods := {
  get_key : gmap loc t → t → float → SubKey;
  _composite : gmap loc t → t → ndarray → float → Z → ndarray;
}.

(** Modelled from the spec: [enable_alpha_matte(target)] links the target
    when the component is UNLINKED and fails when it is already LINKED. *)
Definition enable_alpha_matte (target : loc) (c : t) : Outcome t :=
  match alpha_matte_target c with
  | None => Returned (set_alpha_matte_target (Some target) c)
  | Some _ => Raised (ValueError "alpha matte is already enabled")
  end.

(** Modelled from the spec: [disable_alpha_matte()] detaches the target and
    returns it, or nothing when none is attached. *)
Definition disable_alpha_matte (c : t) : option loc * t :=
  (alpha_matte_target c, set_alpha_matte_target None c).

End Model.
Arguments t {_}.
End Component.

(** ** The frame cache ([diskcache.Cache]) *)

(** [CacheType] of movis/enum.py: the member composition.py uses. *)
Inductive CacheType := COMPOSITION.

#[global] Instance CacheType_eq_dec : EqDecision CacheType.
Proof. solve_decision. Defined.

Section CacheModel.
Context `{Collaborators}.

(** The elements of a cache key, a [tuple[Hashable, ...]]: the composition
    tag, [None], or the sub-key of one component. *)
Inductive Hashable :=
  | HTag (c : CacheType)
  | HNone
  | HSub (k : SubKey).

#[global] Instance Hashable_eq_dec : EqDecision Hashable.
Proof. solve_decision. Defined.

Definition Hashable_enc (h : Hashable) : unit + (unit + SubKey) :=
  match h with
  | HTag COMPOSITION => inl ()
  | HNone => inr (inl ())
  | HSub k => inr (inr k)
  end.

Definition Hashable_dec (x : unit + (unit + SubKey)) : Hashable :=
  match x with
  | inl _ => HTag COMPOSITION
  | inr (inl _) => HNone
  | inr (inr k) => HSub k
  end.

#[global] Instance Hashable_countable : Countable Hashable.
Proof.
  refine (inj_countable' Hashable_enc Hashable_dec _).
  by intros [[]| |].
Defined.

(** What a cache operation does to the store, in the order it happened. *)
Inductive CacheEvent :=
  | Inserted (key : list Hashable)
  | Evicted (key : list Hashable).

(** The cache as composition.py sees it: a dictionary from keys to frames,
    bounded by the [size_limit] it was built with.  [journal] records the
    mutations made so far; it is how "this call did not touch the cache" is
    stated. *)
Record Cache := {
  entries : gmap (list Hashable) ndarray;
  journal : list CacheEvent;
  size_limit : Z;
}.

(** What [Cache.set] does after it has stored a value: diskcache culls, that
    is, once the volume of the cache has reached the size limit it deletes
    entries by its eviction policy, and the entry just stored is not exempt.
    [cull limit history stored] is what is left of [stored]; how diskcache
    measures the volume and picks the entries is diskcache's, so it is a
    parameter of which only this is used: culling adds and changes
    nothing. *)
Class Culling := {
  cull : Z → list CacheEvent → gmap (list Hashable) ndarray →
         gmap (list Hashable) ndarray;
  cull_subseteq limit history stored : cull limit history stored ⊆ stored;
}.

(** diskcache's defaults, which composition.py leaves in place: the eviction
    policy is least-recently-stored and one [set] culls at most
    [cull_limit = 10] entries, the oldest stores first, when the volume is
    not below the limit.  diskcache's volume is the size of its database
    plus that of the stored values; [stored_bytes] counts the bytes of the
    frames only, so it is at most that volume. *)
Definition stored_bytes (stored : gmap (list Hashable) ndarray) : Z :=
  map_fold (λ _ frame total, total + Z.of_nat (length (data frame))) 0 stored.

Definition stored_keys (history : list CacheEvent) : list (list Hashable) :=
  omap (λ e, match e with Inserted key => Some key | Evicted _ => None end)
       history.

(** The keys that are in the cache, by the time of their last store, oldest
    first. *)
Definition store_order (history : list CacheEvent)
    (stored : gmap (list Hashable) ndarray) : list (list Hashable) :=
  List.filter (λ key, bool_decide (is_Some (stored !! key)))
              (remove_dups (stored_keys history)).

Definition cull_least_recently_stored (limit : Z) (history : list CacheEvent)
    (stored : gmap (list Hashable) ndarray) : gmap (list Hashable) ndarray :=
  if stored_bytes stored <? limit then stored
  else foldr delete stored (take 10 (store_order history stored)).

Definition diskcache_defaults : Culling.
Proof.
  refine {| cull := cull_least_recently_stored |}.
  intros limit history stored. unfold cull_least_recently_stored.
  destruct (_ <? _); [done|].
  induction (take 10 _) as [|key keys IH]; simpl; [done|].
  etrans; [apply delete_subseteq|done].
Defined.

Context `{!Culling}.

(** [Cache(size_limit=...)] *)
Definition Cache_new (limit : Z) : Cache :=
  {| entries := ∅; journal := []; size_limit := limit |}.

(** [cache[key] = frame]: the value is stored under the key, then the cache
    culls. *)
Definition Cache_setitem (key : list Hashable) (frame : ndarray) (c : Cache) : Cache :=
  let history := journal c ++ [Inserted key] in
  let stored := <[key := frame]> (entries c) in
  let kept := cull (size_limit c) history stored in
  {| entries := kept;
     journal := history ++ (Evicted <$> (map_to_list (stored ∖ kept)).*1);
     size_limit := size_limit c |}.

(** [del cache[key]] for a key that is present *)
Definition Cache_delitem (key : list Hashable) (c : Cache) : Cache :=
  {| entries := delete key (entries c);
     journal := journal c ++ [Evicted key];
     size_limit := size_limit c |}.


End CacheModel.

(** ** Loops and membership tests *)

(** [for x in xs: acc = body(x, acc)] *)
Fixpoint for_in {St A B} (xs : list A) (body : A → B → M St B) (acc : B) : M St B :=
  match xs with
  | [] => mret acc
  | x :: rest => acc' ← body x acc; for_in rest body acc'
  end.

(** The Python values that meet in [name in self._layers]: a [str] on the
    left, [Component] objects in the list. *)
Inductive PyObj :=
  | PyStr (s : string)
  | PyComponent (l : loc).

(** [a == b].  Two strings compare by value.  [Component] is modelled, as
    the spec describes it, without an [__eq__] of its own, so two
    components are equal when they are the same object, and a string and a
    component never are. *)
Definition py_eq (a b : PyObj) : bool :=
  match a, b with
  | PyStr s, PyStr s' => bool_decide (s = s')
  | PyComponent l, PyComponent l' => bool_decide (l = l')
  | _, _ => false
  end.

(** [x in xs] for a list [xs] *)
Definition py_in (x : PyObj) (xs : list PyObj) : bool := existsb (py_eq x) xs.

(** ** Composition *)

Module Composition.
Section Model.
Context `{Collaborators} `{!Component.Methods}
        `{machine : !Machine} `{culling : !Culling}.

(** The attributes [__init__] sets.  [_name_to_layer] is a
    [WeakValueDictionary]: it holds the entries whose component is still
    alive (see [collect] below). *)
Record t := {
  _layers : list loc;
  _name_to_layer : gmap string loc;
  _duration : float;
  _cache : Cache;
  _preview_level : Z;
  _size : Z * Z;
}.

(** The state a method runs in: the [Component] objects that are alive,
    and the composition. *)
Record World := {
  heap : gmap loc Component.t;
  self : t;
}.

Definition set_layers (f : list loc → list loc) (w : World) : World :=
  {| heap := heap w;
     self := {| _layers := f (_layers (self w));
                _name_to_layer := _name_to_layer (self w);
                _duration := _duration (self w);
                _cache := _cache (self w);
                _preview_level := _preview_level (self w);
                _size := _size (self w) |} |}.

Definition set_name_to_layer (f : gmap string loc → gmap string loc) (w : World) : World :=
  {| heap := heap w;
     self := {| _layers := _layers (self w);
                _name_to_layer := f (_name_to_layer (self w));
                _duration := _duration (self w);
                _cache := _cache (self w);
                _preview_level := _preview_level (self w);
                _size := _size (self w) |} |}.

Definition set_duration (d : float) (w : World) : World :=
  {| heap := heap w;
     self := {| _layers := _layers (self w);
                _name_to_layer := _name_to_layer (self w);
                _duration := d;
                _cache := _cache (self w);
                _preview_level := _preview_level (self w);
                _size := _size (self w) |} |}.

Definition set_cache (f : Cache → Cache) (w : World) : World :=
  {| heap := heap w;
     self := {| _layers := _layers (self w);
                _name_to_layer := _name_to_layer (self w);
                _duration := _duration (self w);
                _cache := f (_cache (self w));
                _preview_level := _preview_level (self w);
                _size := _size (self w) |} |}.

Definition set_preview_level (level : Z) (w : World) : World :=
  {| heap := heap w;
     self := {| _layers := _layers (self w);
                _name_to_layer := _name_to_layer (self w);
                _duration := _duration (self w);
                _cache := _cache (self w);
                _preview_level := level;
                _size := _size (self w) |} |}.

Definition set_size (size : Z * Z) (w : World) : World :=
  {| heap := heap w;
     self := {| _layers := _layers (self w);
                _name_to_layer := _name_to_layer (self w);
                _duration := _duration (self w);
                _cache := _cache (self w);
                _preview_level := _preview_level (self w);
                _size := size |} |}.

Definition set_heap (f : gmap loc Component.t → gmap loc Component.t) (w : World) : World :=
  {| heap := f (heap w); self := self w |}.

(** Reading an object through a reference. *)
Definition deref (l : loc) : M World Component.t :=
  λ w, match heap w !! l with
       | Some c => (Returned c, w)
       | None => (Raised Stuck, w)
       end.

(** Creating an object: it gets an identity no live object has. *)
Definition alloc (c : Component.t) : M World loc :=
  λ w, let l := fresh (dom (heap w)) in
       (Returned l, set_heap (insert l c) w).

(** [Composition(size, duration)]; the defaults are [(1920, 1080)] and
    [1.0]. *)
Definition __init__ (size : Z * Z) (duration : float) : t :=
  {| _layers := [];
     _name_to_layer := ∅;
     _duration := duration;
     _cache := Cache_new (1024 * 1024 * 1024);
     _preview_level := 1;
     _size := size |}.

(** The [size] and [duration] setters. *)
Definition size_setter (size : Z * Z) : M World unit :=
  py_assert (bool_decide (0 < size.1) && bool_decide (0 < size.2)) "";;
  modify (set_size size).

Definition duration_setter (duration : float) : M World unit :=
  py_assert (0 <? duration)%float "";;
  modify (set_duration duration).

(** [with self.preview(level): body] *)
Definition preview {A} (level : Z) (body : M World A) : M World A :=
  py_assert (bool_decide (0 < level)) "";;
  original_level ← gets (_preview_level ∘ self);
  modify (set_preview_level level);;
  try_finally body (modify (set_preview_level original_level)).

(** [with self.final(): body] *)
Definition final {A} (body : M World A) : M World A :=
  original_level ← gets (_preview_level ∘ self);
  modify (set_preview_level 1);;
  try_finally body (modify (set_preview_level original_level)).

(** [keys()]: [[layer.name for layer in self._layers]] *)
Definition keys : M World (list string) :=
  layers ← gets (_layers ∘ self);
  mapM (λ l, c ← deref l; mret (Component.name c)) layers.

(** [__len__] *)
Definition __len__ : M World nat :=
  gets (λ w, length (_layers (self w))).

(** [__getitem__(key)]: [self._name_to_layer[key]] *)
Definition __getitem__ (key : string) : M World loc :=
  index ← gets (_name_to_layer ∘ self);
  match index !! key with
  | Some l => mret l
  | None => raise (KeyError key)
  end.

(** [get_key(time)] *)
Definition get_key (time : float) : M World (list Hashable) :=
  layers ← gets (_layers ∘ self);
  for_in layers (λ l layer_keys,
    component ← deref l;
    let layer_time := (time - Component.offset component)%float in
    if (layer_time <? Component.start_time component)%float
       || (Component.end_time component <=? layer_time)%float
    then mret (layer_keys ++ [HNone])
    else
      objects ← gets heap;
      mret (layer_keys ++ [HSub (Component.get_key objects component layer_time)]))
    [HTag COMPOSITION].

(** [add_layer(layer, name, transform, offset, start_time, end_time,
    visible, blending_mode, origin_point)].  [name], [transform] and
    [end_time] default to [None]. *)
Definition add_layer (layer : Layer) (name : option string)
    (transform : option Transform) (offset start_time : float)
    (end_time : option float) (visible : bool)
    (blending_mode : BlendingMode) (origin_point : Direction) : M World loc :=
  layers ← gets (_layers ∘ self);
  let name := default ("layer_" +:+ pretty (length layers)) name in
  if py_in (PyStr name) (PyComponent <$> layers)
  then raise (KeyError ("Layer with name " +:+ name +:+ " already exists"))
  else
    let end_time := default (Layer_duration layer) end_time in
    size ← gets (_size ∘ self);
    let transform := default (Transform_centered size) transform in
    component ← alloc
      {| Component.name := name;
         Component.layer := layer;
         Component.transform := transform;
         Component.offset := offset;
         Component.start_time := start_time;
         Component.end_time := end_time;
         Component.visible := visible;
         Component.blending_mode := blending_mode;
         Component.origin_point := origin_point;
         Component.alpha_matte_target := None |};
    modify (set_layers (λ ls, ls ++ [component]));;
    modify (set_name_to_layer (insert name component));;
    mret component.

(** [next(i for i in range(len(self._layers)) if self._layers[i].name == name)],
    counting from [i]. *)
Fixpoint next_index (name : string) (layers : list loc) (i : nat) : M World nat :=
  match layers with
  | [] => raise StopIteration
  | l :: rest =>
      c ← deref l;
      if bool_decide (Component.name c = name) then mret i
      else next_index name rest (S i)
  end.

(** [pop_layer(name)] *)
Definition pop_layer (name : string) : M World loc :=
  index_of_names ← gets (_name_to_layer ∘ self);
  if bool_decide (index_of_names !! name = None)
  then raise (KeyError ("Layer with name " +:+ name +:+ " does not exist"))
  else
    layers ← gets (_layers ∘ self);
    index ← next_index name layers 0;
    match layers !! index with
    | Some component =>
        modify (set_layers (delete index));;
        mret component
    | None => raise (IndexError "pop index out of range")
    end.

(** What [__setitem__] can be given: a [Component], a callable (a layer), or
    anything else. *)
Inductive ItemValue :=
  | ComponentValue (l : loc)
  | CallableValue (layer : Layer)
  | OtherValue.

(** [__setitem__(key, value)] *)
Definition __setitem__ (key : string) (value : ItemValue) : M World unit :=
  match value with
  | ComponentValue l =>
      modify (set_layers (λ ls, ls ++ [l]));;
      modify (set_name_to_layer (insert key l))
  | CallableValue layer =>
      add_layer layer (Some key) None 0%float 0%float None true
        BlendingMode_NORMAL Direction_CENTER;;
      mret tt
  | OtherValue =>
      raise (ValueError "value must be Component or Layer (i.e., callable)")
  end.

(** [__delitem__(key)] *)
Definition __delitem__ (key : string) : M World unit :=
  pop_layer key;; mret tt.

(** [enable_alpha_matte(source_name, target_name)] *)
Definition enable_alpha_matte (source_name target_name : string) : M World loc :=
  index ← gets (_name_to_layer ∘ self);
  py_assert (bool_decide (is_Some (index !! source_name))
             && bool_decide (is_Some (index !! target_name)))
    "source and target must be in self.layers";;
  target ← pop_layer target_name;
  source ← __getitem__ source_name;
  c ← deref source;
  c' ← lift (Component.enable_alpha_matte target c);
  modify (set_heap (insert source c'));;
  mret source.

(** [disable_alpha_matte(name)] *)
Definition disable_alpha_matte (name : string) : M World (option loc) :=
  source ← __getitem__ name;
  c ← deref source;
  let '(target, c') := Component.disable_alpha_matte c in
  modify (set_heap (insert source c'));;
  mret target.

(** [__call__(time)]: render one frame. *)
Definition __call__ (time : float) : M World ndarray :=
  L ← gets (_preview_level ∘ self);
  size ← gets (_size ∘ self);
  height ← lift (floordiv size.2 L);
  width ← lift (floordiv size.1 L);
  let current_shape := [height; width] in
  key ← get_key time;
  cache ← gets (_cache ∘ self);
  hit ← match entries cache !! key with
        | Some cached_frame =>
            if bool_decide (take 2 (shape cached_frame) = current_shape)
            then mret (Some cached_frame)
            else modify (set_cache (Cache_delitem key));; mret None
        | None => mret None
        end;
  match hit with
  | Some cached_frame => mret cached_frame
  | None =>
      frame ← lift (np_zeros (current_shape ++ [4]));
      layers ← gets (_layers ∘ self);
      frame ← for_in layers (λ l frame,
        component ← deref l;
        objects ← gets heap;
        level ← gets (_preview_level ∘ self);
        mret (Component._composite objects component frame time level)) frame;
      modify (set_cache (Cache_setitem key frame));;
      mret frame
  end.

(** *** The weak name index and the death of components

    [_name_to_layer] is a [WeakValueDictionary]: an entry lasts as long as
    its component is alive, and a component is alive as long as something
    refers to it: the layer list, the alpha-matte link of a live component,
    or the caller.  No method of [Composition] drops the last reference to a
    component; the caller does, when it lets go of one it holds.  [collect]
    is that moment: given the references the caller still holds, the
    components nothing reaches die and their index entries disappear. *)

Definition matte_step (objects : gmap loc Component.t) (live : gset loc) : gset loc :=
  live ∪ list_to_set
    (omap (λ l, objects !! l ≫= Component.alpha_matte_target) (elements live)).

Definition reachable (objects : gmap loc Component.t) (roots : gset loc) : gset loc :=
  Nat.iter (size objects) (matte_step objects) roots.

Definition collect (held : gset loc) (w : World) : World :=
  let live := reachable (heap w) (list_to_set (_layers (self w)) ∪ held) in
  set_name_to_layer (filter (λ kv, kv.2 ∈ live))
    (set_heap (filter (λ kv, kv.1 ∈ live)) w).

(** *** Conditions on states and on the missing [Component] methods *)

(** Every reference in the layer list has its object. *)
Definition layers_alive (w : World) : Prop :=
  Forall (λ l, is_Some (heap w !! l)) (_layers (self w)).

(** The spec's contract for [render_contribution]: the accumulator comes
    back with the shape it went in with. *)
Definition composite_keeps_shape : Prop :=
  ∀ objects c frame time level,
    shape (Component._composite objects c frame time level) = shape frame.

(** Every cached frame is a height x width x 4 array. *)
Definition cache_frames_rgba (w : World) : Prop :=
  ∀ key frame, entries (_cache (self w)) !! key = Some frame →
    ∃ height width, shape frame = [height; width; 4].

(** The objects behind the layer list, if all are there. *)
Definition components (w : World) : option (list Component.t) :=
  mapM (heap w !!.) (_layers (self w)).

(** One pass of the loop of [get_key], and the whole loop of [__call__], as
    functions of the component. *)
Definition key_entry (objects : gmap loc Component.t) (time : float)
    (c : Component.t) : Hashable :=
  let layer_time := (time - Component.offset c)%float in
  if (layer_time <? Component.start_time c)%float
     || (Component.end_time c <=? layer_time)%float
  then HNone
  else HSub (Component.get_key objects c layer_time).

Definition composite_all (objects : gmap loc Component.t) (time : float)
    (level : Z) (cs : list Component.t) (frame : ndarray) : ndarray :=
  foldl (λ frame c, Component._composite objects c frame time level) frame cs.

(** The entry of the [i]-th layer in the key computed at [time], if the key
    has one. *)
Definition key_entry_at (time : float) (w : World) (i : nat) : option Hashable :=
  match get_key time w with
  | (Returned key, _) => key !! S i
  | (Raised _, _) => None
  end.

(** The reading of the cache key in the spec's words: the key starts with
    the composition tag, and the entry of a layer is absent exactly when the
    component is not active, [Component.is_active] being the spec's test
    (time window and [visible]); otherwise it is the component's sub-key at
    the layer-local time. *)
Definition key_absent_iff_inactive (time : float) (w : World) : Prop :=
  ∃ key, get_key time w = (Returned key, w)
    ∧ key !! 0%nat = Some (HTag COMPOSITION)
    ∧ ∀ i l c, _layers (self w) !! i = Some l → heap w !! l = Some c →
        (key !! S i = Some HNone ↔ Component.is_active c time = false)
        ∧ (Component.is_active c time = true →
           key !! S i = Some (HSub (Component.get_key (heap w) c
                                      (time - Component.offset c)%float))).

(** *** The remaining accessors and the export loop *)

(** The [size], [duration], [preview_level] and [layers] properties
    ([size_getter], as [size] is the size of a finite map here). *)
Definition size_getter : M World (Z * Z) := gets (_size ∘ self).
Definition duration : M World float := gets (_duration ∘ self).
Definition preview_level : M World Z := gets (_preview_level ∘ self).
Definition layers : M World (list loc) := gets (_layers ∘ self).

(** [values()]: the layer list itself. *)
Definition values : M World (list loc) := gets (_layers ∘ self).

(** [items()]: [[(layer.name, layer) for layer in self._layers]] *)
Definition items : M World (list (string * loc)) :=
  layers ← gets (_layers ∘ self);
  mapM (λ l, c ← deref l; mret (Component.name c, l)) layers.



(** The reading of the spec for two renders in a row: whatever the first
    render returns, the second returns the same frame and leaves the state,
    the cache with its journal included, as it found it. *)
Definition second_render_is_silent (time : float) (w : World) : Prop :=
  ∀ frame w1, __call__ time w = (Returned frame, w1) →
    __call__ time w1 = (Returned frame, w1).

(** Two states that differ in the cache at most. *)
Definition same_but_cache (w w' : World) : Prop :=
  heap w' = heap w
  ∧ _layers (self w') = _layers (self w)
  ∧ _name_to_layer (self w') = _name_to_layer (self w)
  ∧ _size (self w') = _size (self w)
  ∧ _duration (self w') = _duration (self w)
  ∧ _preview_level (self w') = _preview_level (self w).

(** The name index and the layer list agree: every name of the index
    leads to a component of the layer list that carries it. *)
Definition index_consistent (w : World) : Prop :=
  ∀ key l, _name_to_layer (self w) !! key = Some l →
    l ∈ _layers (self w) ∧ ∃ c, heap w !! l = Some c ∧ Component.name c = key.

End Model.
End Composition.

(** ** A concrete studio, for running the model *)

Module Sample.

(** A layer is known by its duration, a transform by the size it is
    centred in, blending modes and anchors by name; the sub-key of a
    component is its name. *)
#[export] Instance collaborators : Collaborators := {|
  Layer := float;
  Transform := Z * Z;
  BlendingMode := string;
  Direction := string;
  SubKey := string;
  Layer_duration := λ d, d;
  Transform_centered := λ size, size;
  BlendingMode_NORMAL := "normal";
  Direction_CENTER := "center";
|}.

(** An active component adds one to every value of the accumulator. *)
#[export] Instance methods : Component.Methods := {|
  Component.get_key := λ _ c _, Component.name c;
  Component._composite := λ _ c frame time _,
    if Component.is_active c time
    then {| shape := shape frame; data := (λ v, (v + 1) `mod` 256) <$> data frame |}
    else frame;
|}.

(** A machine that has 16 GiB for one allocation, and diskcache with its
    defaults. *)
#[export] Instance machine : Machine := {| has_memory := λ bytes, bytes <=? 2 ^ 34 |}.
#[export] Instance culling : Culling := diskcache_defaults.

Definition run {A} (m : M Composition.World A) (w : Composition.World) : Composition.World :=
  (m w).2.

(** [Composition(size=(4, 2), duration=2.0)] *)
Definition empty : Composition.World :=
  {| Composition.heap := ∅;
     Composition.self := Composition.__init__ (4, 2) 2%float |}.

(** [add_layer(a, name="A", end_time=2.0)], then
    [add_layer(b, name="B", start_time=1.0, end_time=2.0)]. *)
Definition two_layers : Composition.World :=
  run (Composition.add_layer 2%float (Some "B") None 0%float 1%float (Some 2%float)
         true "normal" "center")
    (run (Composition.add_layer 2%float (Some "A") None 0%float 0%float (Some 2%float)
            true "normal" "center") empty).

(** One layer that is inside its time window at 0.5 but not visible. *)
Definition hidden_layer : Composition.World :=
  run (Composition.add_layer 2%float (Some "bg") None 0%float 0%float (Some 1%float)
         false "normal" "center") empty.

(** [Composition(size=(16384, 16384))] without layers: one frame takes
    16384 x 16384 x 4 bytes, which is 1 GiB. *)
Definition one_gibibyte_frames : Composition.World :=
  {| Composition.heap := ∅;
     Composition.self := Composition.__init__ (16384, 16384) 1%float |}.

(** The zero accumulator of [one_gibibyte_frames]. *)
Definition gibibyte_of_zeros : ndarray :=
  {| shape := [16384; 16384; 4];
     data := replicate (Z.to_nat (foldr Z.mul 1 [16384; 16384; 4])) 0 |}.

(** The frame at 0.5 rendered and cached at half resolution. *)
Definition low_res_cached : Composition.World :=
  run (Composition.preview 2 (Composition.__call__ 0.5%float)) two_layers.

End Sample.

(** * Facts about float comparisons *)

Module Time.
Open Scope float_scope.

(** [x - 0.0] is [x] for every float, NaN and the signed zeros included. *)
Lemma sub_0_r (x : float) : x - 0 = x.
Proof.
  apply Prim2SF_inj. rewrite sub_spec.
  change (Prim2SF 0) with (S754_zero false).
  unfold SF64sub, SFsub. destruct (Prim2SF x) as [[]| | |]; reflexivity.
Qed.

Lemma SFcompare_antisym (x y : spec_float) (c : comparison) :
  SFcompare x y = Some c → SFcompare y x = Some (CompOpp c).
Proof.
  destruct x as [sx|sx| |sx mx ex], y as [sy|sy| |sy my ey]; simpl;
    try discriminate; intros [= <-];
    try (destruct sx; reflexivity); try (destruct sy; reflexivity);
    try (destruct sx, sy; reflexivity).
  destruct sx, sy; try reflexivity;
    rewrite (Z.compare_antisym ex ey); destruct (ex ?= ey)%Z; simpl;
    try reflexivity; f_equal;
    rewrite (Pos.compare_cont_antisym mx my Eq); simpl;
    try rewrite CompOpp_involutive; reflexivity.
Qed.

(** A strict comparison that holds excludes the converse weak one. *)
Lemma ltb_leb_false (x y : float) : (x <? y) = true → (y <=? x) = false.
Proof.
  rewrite ltb_spec, leb_spec. unfold SFltb, SFleb.
  destruct (SFcompare (Prim2SF x) (Prim2SF y)) as [c|] eqn:E; [|done].
  rewrite (SFcompare_antisym _ _ _ E). by destruct c.
Qed.

Lemma leb_ltb_false (x y : float) : (x <=? y) = true → (y <? x) = false.
Proof.
  rewrite ltb_spec, leb_spec. unfold SFltb, SFleb.
  destruct (SFcompare (Prim2SF x) (Prim2SF y)) as [c|] eqn:E; [|done].
  rewrite (SFcompare_antisym _ _ _ E). by destruct c.
Qed.

Lemma not_nan_compare (x : float) :
  is_nan x = false → Prim2SF x ≠ S754_nan.
Proof.
  unfold is_nan. rewrite FloatAxioms.eqb_spec. unfold SFeqb. intros H E.
  rewrite E in H. discriminate.
Qed.

Lemma SFcompare_total (x y : spec_float) :
  x ≠ S754_nan → y ≠ S754_nan → is_Some (SFcompare x y).
Proof. destruct x, y; simpl; intros; try done; eauto. Qed.

(** On ordered floats [<] is the complement of the converse [<=]. *)
Lemma ltb_negb_leb (x y : float) :
  ordered x y = true → (x <? y) = negb (y <=? x).
Proof.
  unfold ordered. intros [Hx Hy]%andb_prop.
  apply negb_true_iff, not_nan_compare in Hx.
  apply negb_true_iff, not_nan_compare in Hy.
  rewrite ltb_spec, leb_spec. unfold SFltb, SFleb.
  destruct (SFcompare_total _ _ Hx Hy) as [c E]. rewrite E.
  rewrite (SFcompare_antisym _ _ _ E). by destruct c.
Qed.
End Time.

(** * Properties of Composition *)

Section CompositionProperties.
Context `{Collaborators} `{!Component.Methods}
        `{machine : !Machine} `{culling : !Culling}.
Import Composition.

(** Unfolding one step of a method body. *)
Ltac run_body :=
  unfold mbind, M_bind, mret, M_ret, gets, modify, raise, lift, py_assert,
    deref, compose; simpl.

(** ** The two loops *)

Lemma get_key_loop (time : float) (layers : list loc) (acc : list Hashable) (w : World) :
  for_in layers (λ l layer_keys,
    component ← deref l;
    let layer_time := (time - Component.offset component)%float in
    if (layer_time <? Component.start_time component)%float
       || (Component.end_time component <=? layer_time)%float
    then mret (layer_keys ++ [HNone])
    else
      objects ← gets heap;
      mret (layer_keys ++ [HSub (Component.get_key objects component layer_time)]))
    acc w
  = (match mapM (heap w !!.) layers with
     | Some cs => Returned (acc ++ (key_entry (heap w) time <$> cs))
     | None => Raised Stuck
     end, w).
Proof.
  revert acc. induction layers as [|l layers IH]; intros acc; simpl.
  - by rewrite app_nil_r.
  - run_body. destruct (heap w !! l) as [c|] eqn:Hl; simpl; [|done].
    destruct ((time - Component.offset c <? Component.start_time c)%float
              || (Component.end_time c <=? time - Component.offset c)%float) eqn:E;
      run_body; rewrite IH; destruct (mapM (heap w !!.) layers) as [cs|]; simpl;
      try done; rewrite <-app_assoc; simpl; unfold key_entry at 2; simpl;
      by rewrite E.
Qed.

Lemma get_key_unfold (time : float) (w : World) :
  get_key time w
  = (match components w with
     | Some cs => Returned (HTag COMPOSITION :: (key_entry (heap w) time <$> cs))
     | None => Raised Stuck
     end, w).
Proof. exact (get_key_loop time (_layers (self w)) [HTag COMPOSITION] w). Qed.

Lemma composite_loop (time : float) (layers : list loc) (frame : ndarray) (w : World) :
  for_in layers (λ l frame,
    component ← deref l;
    objects ← gets heap;
    level ← gets (_preview_level ∘ self);
    mret (Component._composite objects component frame time level)) frame w
  = (match mapM (heap w !!.) layers with
     | Some cs =>
         Returned (composite_all (heap w) time (_preview_level (self w)) cs frame)
     | None => Raised Stuck
     end, w).
Proof.
  revert frame. induction layers as [|l layers IH]; intros frame; simpl; [done|].
  run_body. destruct (heap w !! l) as [c|] eqn:Hl; simpl; [|done].
  rewrite IH. by destruct (mapM (heap w !!.) layers).
Qed.

Lemma components_alive (w : World) :
  layers_alive w → ∃ cs, components w = Some cs.
Proof.
  intros Hw. apply (mapM_is_Some_2 (heap w !!.)) in Hw.
  destruct Hw as [cs Hcs]. by exists cs.
Qed.

Lemma components_lookup (w : World) (cs : list Component.t) (i : nat) (l : loc) (c : Component.t) :
  components w = Some cs → _layers (self w) !! i = Some l → heap w !! l = Some c →
  cs !! i = Some c.
Proof.
  intros Hcs Hi Hl. apply mapM_Some in Hcs.
  destruct (Forall2_lookup_l _ _ _ _ _ Hcs Hi) as (c' & Hc' & Hlc').
  congruence.
Qed.

Lemma components_length (w : World) (cs : list Component.t) :
  components w = Some cs → length cs = length (_layers (self w)).
Proof. intros Hcs. apply mapM_Some in Hcs. symmetry. by eapply Forall2_length. Qed.

Lemma key_entry_at_layer (time : float) (w : World) (i : nat) (l : loc) (c : Component.t) :
  layers_alive w → _layers (self w) !! i = Some l → heap w !! l = Some c →
  key_entry_at time w i = Some (key_entry (heap w) time c).
Proof.
  intros Hw Hi Hl. destruct (components_alive w Hw) as [cs Hcs].
  unfold key_entry_at. rewrite get_key_unfold, Hcs. simpl.
  rewrite list_lookup_fmap, (components_lookup w cs i l c); done.
Qed.

Lemma keys_loop (layers : list loc) (w : World) :
  mapM (M := M World) (λ l, c ← deref l; mret (Component.name c)) layers w
  = (match mapM (heap w !!.) layers with
     | Some cs => Returned (Component.name <$> cs)
     | None => Raised Stuck
     end, w).
Proof.
  set (f := λ l : loc, c ← deref l; mret (Component.name c)).
  induction layers as [|l layers IH]; [done|].
  change (mapM f (l :: layers) w)
    with ((y ← f l; k ← mapM f layers; mret (y :: k)) w).
  unfold mbind at 1, M_bind at 1.
  assert (f l w = (match heap w !! l with
                   | Some c => Returned (Component.name c)
                   | None => Raised Stuck
                   end, w)) as ->.
  { unfold f. run_body. by destruct (heap w !! l). }
  simpl. destruct (heap w !! l) as [c|]; simpl; [|done].
  unfold mbind at 1, M_bind at 1. rewrite IH.
  by destruct (mapM (heap w !!.) layers).
Qed.

Lemma keys_unfold (w : World) :
  keys w
  = (match components w with
     | Some cs => Returned (Component.name <$> cs)
     | None => Raised Stuck
     end, w).
Proof. exact (keys_loop (_layers (self w)) w). Qed.

(** ** The cache key *)

(** C1, as the code has it.  [get_key(time)] returns without touching the
    state; the key starts with the composition tag and has one entry per
    layer, in layer order.  The entry of a layer is absent exactly when
    [layer_time < start_time or end_time <= layer_time] holds for
    [layer_time = time - offset]; otherwise it is the component's own
    sub-key at [layer_time].  [visible] plays no part.  When no NaN is
    involved the test is the complement of
    [start_time <= layer_time < end_time]. *)
Theorem get_key_time_window (time : float) (w : World) :
  layers_alive w →
  ∃ key, get_key time w = (Returned key, w)
    ∧ key !! 0%nat = Some (HTag COMPOSITION)
    ∧ length key = S (length (_layers (self w)))
    ∧ ∀ i l c, _layers (self w) !! i = Some l → heap w !! l = Some c →
        let layer_time := (time - Component.offset c)%float in
        let outside :=
          (layer_time <? Component.start_time c)%float
          || (Component.end_time c <=? layer_time)%float in
        (key !! S i = Some HNone ↔ outside = true)
        ∧ (outside = false →
           key !! S i = Some (HSub (Component.get_key (heap w) c layer_time)))
        ∧ (ordered layer_time (Component.start_time c)
           && ordered layer_time (Component.end_time c) = true →
           outside = negb ((Component.start_time c <=? layer_time)%float
                           && (layer_time <? Component.end_time c)%float)).
Proof.
  intros Hw. destruct (components_alive w Hw) as [cs Hcs].
  eexists. split; [by rewrite get_key_unfold, Hcs|].
  split; [done|]. split.
  { simpl. by rewrite length_fmap, (components_length w cs). }
  intros i l c Hi Hl layer_time outside. simpl.
  rewrite list_lookup_fmap, (components_lookup w cs i l c) by done. simpl.
  unfold key_entry. fold layer_time. fold outside.
  split; [|split].
  - destruct outside; split; intros; done.
  - by intros ->.
  - intros [H1 H2]%andb_prop. unfold outside.
    rewrite (Time.ltb_negb_leb _ _ H1).
    rewrite (Time.ltb_negb_leb (layer_time) (Component.end_time c) H2).
    rewrite negb_andb. by rewrite negb_involutive.
Qed.

(** C6.  A component with [offset = 0], [start_time = 1.0] and
    [end_time = 2.0] has a sub-key in the cache key at every time [t] with
    [1.0 <= t < 2.0], at [t = 1.0] in particular, and an absent entry at
    every [t < 1.0] and at [t = 2.0]. *)
Theorem half_open_time_window (w : World) (i : nat) (l : loc) (c : Component.t) :
  layers_alive w → _layers (self w) !! i = Some l → heap w !! l = Some c →
  Component.offset c = 0%float →
  Component.start_time c = 1%float →
  Component.end_time c = 2%float →
  (∀ time : float, (1 <=? time)%float = true → (time <? 2)%float = true →
     key_entry_at time w i = Some (HSub (Component.get_key (heap w) c time)))
  ∧ key_entry_at 1%float w i = Some (HSub (Component.get_key (heap w) c 1%float))
  ∧ (∀ time : float, (time <? 1)%float = true → key_entry_at time w i = Some HNone)
  ∧ key_entry_at 2%float w i = Some HNone.
Proof.
  intros Hw Hi Hl Hoff Hstart Hend.
  assert (∀ time, key_entry_at time w i
            = Some (if (time <? 1)%float || (2 <=? time)%float then HNone
                    else HSub (Component.get_key (heap w) c time))) as Hentry.
  { intros time. rewrite (key_entry_at_layer time w i l c) by done.
    unfold key_entry. by rewrite Hoff, Hstart, Hend, Time.sub_0_r. }
  split; [|split; [|split]].
  - intros time H1 H2. rewrite Hentry.
    by rewrite (Time.leb_ltb_false _ _ H1), (Time.ltb_leb_false _ _ H2).
  - by rewrite Hentry.
  - intros time H1. by rewrite Hentry, H1.
  - by rewrite Hentry.
Qed.

(** ** Rendering *)

(** [__call__] step by step: the working resolution, the key, then a cache
    hit at the current resolution, or a recomputation, after an eviction
    when the cached frame has another resolution. *)
Lemma call_unfold (time : float) (w : World) :
  __call__ time w =
    match floordiv (_size (self w)).2 (_preview_level (self w)) with
    | Raised e => (Raised e, w)
    | Returned height =>
      match floordiv (_size (self w)).1 (_preview_level (self w)) with
      | Raised e => (Raised e, w)
      | Returned width =>
        match components w with
        | None => (Raised Stuck, w)
        | Some cs =>
          let key := HTag COMPOSITION :: (key_entry (heap w) time <$> cs) in
          let recompute (w0 : World) :=
            match np_zeros [height; width; 4] with
            | Returned zeros =>
                let frame :=
                  composite_all (heap w) time (_preview_level (self w)) cs zeros in
                (Returned frame, set_cache (Cache_setitem key frame) w0)
            | Raised e => (Raised e, w0)
            end in
          match entries (_cache (self w)) !! key with
          | Some cached_frame =>
              if bool_decide (take 2 (shape cached_frame) = [height; width])
              then (Returned cached_frame, w)
              else recompute (set_cache (Cache_delitem key) w)
          | None => recompute w
          end
        end
      end
    end.
Proof.
  unfold __call__.
  unfold mbind at 1, M_bind at 1. unfold gets at 1. simpl.
  unfold mbind at 1, M_bind at 1. unfold gets at 1. simpl.
  unfold mbind at 1, M_bind at 1. unfold lift at 1. simpl.
  destruct (floordiv (_size (self w)).2 (_preview_level (self w))) as [height|]; [|done].
  unfold mbind at 1, M_bind at 1. unfold lift at 1. simpl.
  destruct (floordiv (_size (self w)).1 (_preview_level (self w))) as [width|]; [|done].
  unfold mbind at 1, M_bind at 1. rewrite get_key_unfold.
  destruct (components w) as [cs|] eqn:Hcs; [|done].
  set (key := HTag COMPOSITION :: (key_entry (heap w) time <$> cs)).
  unfold mbind at 1, M_bind at 1. unfold gets at 1. simpl.
  set (recompute := λ w0 : World,
    match np_zeros [height; width; 4] with
    | Returned zeros =>
        (Returned (composite_all (heap w) time (_preview_level (self w)) cs zeros),
         set_cache
           (Cache_setitem key
              (composite_all (heap w) time (_preview_level (self w)) cs zeros)) w0)
    | Raised e => (Raised e, w0)
    end).
  assert (∀ w0 : World, heap w0 = heap w → _layers (self w0) = _layers (self w) →
            _preview_level (self w0) = _preview_level (self w) →
            (frame ← lift (np_zeros ([height; width] ++ [4]));
             layers ← gets (_layers ∘ self);
             frame ← for_in layers (λ l frame,
               component ← deref l;
               objects ← gets heap;
               level ← gets (_preview_level ∘ self);
               mret (Component._composite objects component frame time level)) frame;
             modify (set_cache (Cache_setitem key frame));;
             mret frame) w0 = recompute w0) as Hmiss.
  { intros w0 Hheap Hlayers Hlevel. unfold recompute.
    unfold mbind at 1, M_bind at 1. unfold lift at 1. simpl.
    destruct (np_zeros [height; width; 4]) as [zeros|e]; [|done].
    unfold mbind at 1, M_bind at 1. unfold gets at 1. simpl.
    unfold mbind at 1, M_bind at 1. rewrite composite_loop.
    unfold components in Hcs. by rewrite Hheap, Hlayers, Hlevel, Hcs. }
  destruct (entries (_cache (self w)) !! key) as [cached|] eqn:Hhit.
  - destruct (bool_decide (take 2 (shape cached) = [height; width])); [done|].
    unfold mbind at 1, M_bind at 1. simpl. by apply Hmiss.
  - unfold mbind at 1, M_bind at 1. simpl. by apply Hmiss.
Qed.

(** C8.  Whatever [__call__(time)] does, returning or raising, it leaves the
    layer list, the name index, the size, the duration and the preview
    level as they were, and the components too: only the cache can differ. *)
Theorem call_touches_cache_only (time : float) (w : World) :
  let w' := (__call__ time w).2 in
  _layers (self w') = _layers (self w)
  ∧ _name_to_layer (self w') = _name_to_layer (self w)
  ∧ _size (self w') = _size (self w)
  ∧ _duration (self w') = _duration (self w)
  ∧ _preview_level (self w') = _preview_level (self w)
  ∧ heap w' = heap w.
Proof.
  simpl. rewrite call_unfold.
  destruct (floordiv _ _); [|done].
  destruct (floordiv _ _); [|done].
  destruct (components w); [|done]. simpl.
  destruct (entries _ !! _); [destruct (bool_decide _); [done|]|];
    by destruct (np_zeros _).
Qed.

Lemma composite_all_shape (objects : gmap loc Component.t) (time : float)
    (level : Z) (cs : list Component.t) (frame : ndarray) :
  composite_keeps_shape →
  shape (composite_all objects time level cs frame) = shape frame.
Proof.
  intros Hkeep. unfold composite_all. revert frame.
  induction cs as [|c cs IH]; intros frame; simpl; [done|].
  by rewrite IH, Hkeep.
Qed.

Lemma np_zeros_shape (dims : list Z) (zeros : ndarray) :
  np_zeros dims = Returned zeros → shape zeros = dims.
Proof. unfold np_zeros. intros Hz. repeat case_match; by simplify_eq. Qed.

Lemma np_zeros_data (dims : list Z) (zeros : ndarray) :
  np_zeros dims = Returned zeros →
  data zeros = replicate (Z.to_nat (foldr Z.mul 1 dims)) 0.
Proof. unfold np_zeros. intros Hz. repeat case_match; by simplify_eq. Qed.

(** When [np.zeros] returns: the dimensions and the size are within
    [npy_intp] and the machine has the memory. *)
Lemma np_zeros_returns (dims : list Z) :
  forallb (λ d, (NPY_MIN_INTP <=? d) && (d <=? NPY_MAX_INTP)) dims = true →
  forallb (Z.leb 0) dims = true →
  (NPY_MAX_INTP <? foldr Z.mul 1 (List.filter (λ d, negb (d =? 0)) dims)) = false →
  has_memory (foldr Z.mul 1 dims) = true →
  np_zeros dims
  = Returned {| shape := dims;
                data := replicate (Z.to_nat (foldr Z.mul 1 dims)) 0 |}.
Proof. intros Hrange Hsign Hsize Hmem. unfold np_zeros. by rewrite Hrange, Hsign, Hsize, Hmem. Qed.

(** What is in the cache after [cache[key] = frame]: the frame under the
    key, if the cache kept it, and of the other entries those it kept. *)
Lemma Cache_setitem_lookup (key k : list Hashable) (frame f : ndarray) (c : Cache) :
  entries (Cache_setitem key frame c) !! k = Some f →
  (k = key ∧ f = frame) ∨ (k ≠ key ∧ entries c !! k = Some f).
Proof.
  simpl. intros Hk.
  pose proof (lookup_weaken _ _ _ _ Hk (cull_subseteq _ _ _)) as Hstored.
  apply lookup_insert_Some in Hstored as [[<- <-]|[Hne Hold]]; [by left|].
  right. by split.
Qed.

Lemma Cache_setitem_journal (key : list Hashable) (frame : ndarray) (c : Cache) :
  ∃ culled, journal (Cache_setitem key frame c)
            = journal c ++ [Inserted key] ++ (Evicted <$> culled).
Proof. eexists. simpl. by rewrite <-app_assoc. Qed.

Lemma Cache_setitem_changes (key : list Hashable) (frame : ndarray) (w : World) :
  journal (_cache (self (set_cache (Cache_setitem key frame) w)))
  ≠ journal (_cache (self w)).
Proof.
  destruct (Cache_setitem_journal key frame (_cache (self w))) as [culled Hj].
  simpl in *. rewrite Hj. intros Heq%(f_equal length).
  rewrite !length_app in Heq. simpl in Heq. lia.
Qed.

Lemma floordiv_pos (a b : Z) : 0 < b → floordiv a b = Returned (a `div` b).
Proof. intros Hb. unfold floordiv. destruct (decide (b = 0)); [lia|done]. Qed.

(** A new composition has an empty cache, and an empty cache holds no
    frame of a wrong kind. *)
Lemma new_composition_cache_rgba (objects : gmap loc Component.t)
    (size : Z * Z) (duration : float) :
  cache_frames_rgba {| heap := objects; self := __init__ size duration |}.
Proof. intros key frame. simpl. by rewrite lookup_empty. Qed.

(** A composition without layers: when the cache has nothing under the
    bare key, [__call__] hands the zero frame to the cache and returns it. *)
Lemma call_without_layers (time : float) (w : World) (zeros : ndarray) :
  _layers (self w) = [] → 0 < _preview_level (self w) →
  np_zeros [(_size (self w)).2 `div` _preview_level (self w);
            (_size (self w)).1 `div` _preview_level (self w); 4] = Returned zeros →
  entries (_cache (self w)) !! [HTag COMPOSITION] = None →
  __call__ time w
  = (Returned zeros, set_cache (Cache_setitem [HTag COMPOSITION] zeros) w).
Proof.
  intros Hlayers HL Hz Hmiss. rewrite call_unfold, !floordiv_pos by done.
  unfold components. rewrite Hlayers. simpl. by rewrite Hmiss, Hz.
Qed.

(** C2.  In a state whose preview level is positive and whose cached frames
    all come from earlier renders, and when the zero accumulator of the
    working resolution can be allocated, [__call__(time)] returns a frame of
    shape [(height // L, width // L, 4)] for the preview level [L] of the
    call.  When the cache holds, under the key of this call, a frame of
    another resolution, that frame is not what is returned: the entry is
    evicted, the frame is computed anew from the zero accumulator at the
    current resolution and handed to the cache under the key; whatever the
    cache then holds under the key is the new frame. *)
Theorem call_frame_shape (time : float) (w : World) (zeros : ndarray) :
  composite_keeps_shape → cache_frames_rgba w → layers_alive w →
  0 < _preview_level (self w) →
  let L := _preview_level (self w) in
  let height := (_size (self w)).2 `div` L in
  let width := (_size (self w)).1 `div` L in
  np_zeros [height; width; 4] = Returned zeros →
  ∃ frame w' key,
    get_key time w = (Returned key, w)
    ∧ __call__ time w = (Returned frame, w')
    ∧ shape frame = [height; width; 4]
    ∧ cache_frames_rgba w'
    ∧ ∀ cached, entries (_cache (self w)) !! key = Some cached →
        take 2 (shape cached) ≠ [height; width] →
        frame ≠ cached
        ∧ w' = set_cache (Cache_setitem key frame) (set_cache (Cache_delitem key) w)
        ∧ (∃ culled, journal (_cache (self w'))
             = journal (_cache (self w))
               ++ [Evicted key; Inserted key] ++ (Evicted <$> culled))
        ∧ (∀ f, entries (_cache (self w')) !! key = Some f → f = frame)
        ∧ ∃ cs, components w = Some cs
            ∧ frame = composite_all (heap w) time L cs zeros.
Proof.
  intros Hkeep Hcache Hw HL L height width Hz.
  destruct (components_alive w Hw) as [cs Hcs].
  pose proof (np_zeros_shape _ _ Hz) as Hzs.
  set (key := HTag COMPOSITION :: (key_entry (heap w) time <$> cs)).
  set (fresh_frame := composite_all (heap w) time L cs zeros).
  assert (shape fresh_frame = [height; width; 4]) as Hfs.
  { unfold fresh_frame. by rewrite composite_all_shape. }
  assert (∀ w0 : World,
            (∀ k f, entries (_cache (self w0)) !! k = Some f →
                    ∃ h' w', shape f = [h'; w'; 4]) →
            cache_frames_rgba (set_cache (Cache_setitem key fresh_frame) w0)) as Hins.
  { intros w0 Hw0 k f Hk.
    apply (Cache_setitem_lookup key k fresh_frame f) in Hk as [[-> ->]|[_ Hk]];
      [eauto|]. by eapply Hw0. }
  assert (get_key time w = (Returned key, w)) as Hkey.
  { by rewrite get_key_unfold, Hcs. }
  pose proof (call_unfold time w) as Hcall.
  rewrite Hcs, !floordiv_pos in Hcall by done.
  fold L height width key in Hcall. rewrite Hz in Hcall.
  fold fresh_frame in Hcall. cbv zeta in Hcall.
  destruct (entries (_cache (self w)) !! key) as [cached|] eqn:Hhit.
  - destruct (decide (take 2 (shape cached) = [height; width])) as [Hshape|Hshape].
    + rewrite bool_decide_eq_true_2 in Hcall by done.
      exists cached, w, key. split; [done|]. split; [done|].
      destruct (Hcache _ _ Hhit) as (h' & w' & Hs). rewrite Hs in Hshape |- *.
      simpl in Hshape. split; [congruence|]. split; [done|].
      intros cached' Hc Hne. simplify_eq. rewrite Hs in Hne. done.
    + rewrite bool_decide_eq_false_2 in Hcall by done.
      eexists fresh_frame, _, key. split; [done|]. split; [exact Hcall|].
      split; [done|]. split.
      { apply Hins. intros k f. simpl.
        rewrite lookup_delete. case_decide; [done|]. apply Hcache. }
      intros cached' Hc Hne. simplify_eq. split.
      { intros <-. by rewrite Hfs in Hne. }
      split; [done|]. split.
      { destruct (Cache_setitem_journal key fresh_frame
                    (Cache_delitem key (_cache (self w)))) as [culled Hj].
        exists culled. simpl in Hj |- *. by rewrite Hj, <-app_assoc. }
      split; [|by exists cs].
      intros f Hf.
      by apply (Cache_setitem_lookup key key fresh_frame f) in Hf as [[_ ->]|[? _]].
  - exists fresh_frame, (set_cache (Cache_setitem key fresh_frame) w), key.
    split; [done|]. split; [done|]. split; [done|].
    split; [by apply Hins|]. intros cached' Hc. congruence.
Qed.

(** C5.  If [__call__(time)] returned a frame, calling it again in the state
    it left returns the same frame.  That second call leaves the state as it
    is, the cache with its record of insertions and evictions included,
    when the cache still holds the frame under the key of the call, and the
    bounded cache need not: when it holds nothing under the key, the second
    call computes the frame again and hands it to the cache, which is a
    mutation.  There is no third case. *)
Theorem call_twice (time : float) (w w1 : World) (frame : ndarray) :
  composite_keeps_shape →
  __call__ time w = (Returned frame, w1) →
  ∃ key,
    get_key time w = (Returned key, w)
    ∧ (__call__ time w1).1 = Returned frame
    ∧ (entries (_cache (self w1)) !! key = Some frame →
       __call__ time w1 = (Returned frame, w1))
    ∧ (entries (_cache (self w1)) !! key = None →
       (__call__ time w1).2 = set_cache (Cache_setitem key frame) w1
       ∧ journal (_cache (self (__call__ time w1).2)) ≠ journal (_cache (self w1)))
    ∧ (entries (_cache (self w1)) !! key = Some frame
       ∨ entries (_cache (self w1)) !! key = None).
Proof.
  intros Hkeep. rewrite call_unfold.
  destruct (floordiv (_size (self w)).2 _) as [height|] eqn:Hh; [|done].
  destruct (floordiv (_size (self w)).1 _) as [width|] eqn:Hwd; [|done].
  destruct (components w) as [cs|] eqn:Hcs; [|done]. simpl.
  set (key := HTag COMPOSITION :: (key_entry (heap w) time <$> cs)).
  assert (get_key time w = (Returned key, w)) as Hkey.
  { by rewrite get_key_unfold, Hcs. }
  assert (∀ w0 zeros,
            heap w0 = heap w → _layers (self w0) = _layers (self w) →
            _preview_level (self w0) = _preview_level (self w) →
            _size (self w0) = _size (self w) →
            np_zeros [height; width; 4] = Returned zeros →
            let frame := composite_all (heap w) time (_preview_level (self w)) cs zeros in
            let w1 := set_cache (Cache_setitem key frame) w0 in
            (__call__ time w1).1 = Returned frame
            ∧ (entries (_cache (self w1)) !! key = Some frame →
               __call__ time w1 = (Returned frame, w1))
            ∧ (entries (_cache (self w1)) !! key = None →
               (__call__ time w1).2 = set_cache (Cache_setitem key frame) w1
               ∧ journal (_cache (self (__call__ time w1).2))
                 ≠ journal (_cache (self w1)))
            ∧ (entries (_cache (self w1)) !! key = Some frame
               ∨ entries (_cache (self w1)) !! key = None)) as Hagain.
  { intros w0 zeros Hheap Hlayers Hlevel Hsize Hz frame0 w2.
    assert (shape frame0 = [height; width; 4]) as Hfs.
    { unfold frame0. by rewrite composite_all_shape, (np_zeros_shape _ _ Hz). }
    rewrite call_unfold. unfold components.
    replace (heap w2) with (heap w) by done.
    replace (_layers (self w2)) with (_layers (self w)) by done.
    replace (_preview_level (self w2)) with (_preview_level (self w)) by done.
    replace (_size (self w2)) with (_size (self w)) by done.
    rewrite Hh, Hwd. fold (components w). rewrite Hcs. cbv zeta. fold key.
    rewrite Hz. fold frame0.
    destruct (entries (_cache (self w2)) !! key) as [f|] eqn:Hf.
    - pose proof (Cache_setitem_lookup key key frame0 f _ Hf) as [[_ ->]|[? _]]; [|done].
      rewrite Hfs. simpl. rewrite bool_decide_eq_true_2 by done.
      split; [done|]. split; [done|]. split; [done|]. by left.
    - split; [done|]. split; [done|]. split; [|by right].
      intros _. split; [done|]. simpl snd. apply Cache_setitem_changes. }
  destruct (entries (_cache (self w)) !! key) as [cached|] eqn:Hhit.
  - case_bool_decide as Hshape.
    + intros [= <- <-]. exists key. split; [done|].
      rewrite call_unfold, Hh, Hwd, Hcs. cbv zeta. fold key.
      rewrite Hhit, bool_decide_eq_true_2 by done.
      split; [done|]. split; [done|]. split; [congruence|]. by left.
    + destruct (np_zeros [height; width; 4]) as [zeros|] eqn:Hz; [|done].
      intros [= <- <-]. exists key. split; [done|]. by apply Hagain.
  - destruct (np_zeros [height; width; 4]) as [zeros|] eqn:Hz; [|done].
    intros [= <- <-]. exists key. split; [done|]. by apply Hagain.
Qed.

(** ** The preview scopes *)

(** C7.  [with preview(level)] with a positive level runs its block in the
    state whose preview level is [level], [with final()] in the state whose
    preview level is 1; whether the block returns or raises, its outcome is
    the outcome of the scope and the preview level is afterwards the one
    from before the scope. *)
Theorem preview_scope_restores {A} (level : Z) (body : M World A) (w : World) :
  0 < level →
  let original := _preview_level (self w) in
  _preview_level (self (set_preview_level level w)) = level
  ∧ preview level body w
    = (let '(r, w') := body (set_preview_level level w) in
       (r, set_preview_level original w'))
  ∧ _preview_level (self (preview level body w).2) = original
  ∧ _preview_level (self (set_preview_level 1 w)) = 1
  ∧ final body w
    = (let '(r, w') := body (set_preview_level 1 w) in
       (r, set_preview_level original w'))
  ∧ _preview_level (self (final body w).2) = original.
Proof.
  intros Hlevel original.
  assert (preview level body w
          = (let '(r, w') := body (set_preview_level level w) in
             (r, set_preview_level original w'))) as Hpreview.
  { unfold preview. run_body. rewrite bool_decide_eq_true_2 by done. simpl.
    unfold try_finally. by destruct (body _). }
  assert (final body w
          = (let '(r, w') := body (set_preview_level 1 w) in
             (r, set_preview_level original w'))) as Hfinal.
  { unfold final. run_body. unfold try_finally. by destruct (body _). }
  rewrite Hpreview, Hfinal.
  destruct (body (set_preview_level level w)), (body (set_preview_level 1 w)).
  done.
Qed.

(** A non-positive level is refused before anything changes. *)
Lemma preview_rejects_level {A} (level : Z) (body : M World A) (w : World) :
  level ≤ 0 → preview level body w = (Raised (AssertionError ""), w).
Proof.
  intros Hlevel. unfold preview. run_body.
  rewrite bool_decide_eq_false_2 by lia. done.
Qed.

(** ** Adding layers *)

(** The test [name in self._layers] never succeeds: the list holds
    components, not names. *)
Lemma name_not_in_layers (name : string) (layers : list loc) :
  py_in (PyStr name) (PyComponent <$> layers) = false.
Proof. unfold py_in. induction layers as [|l layers IH]; simpl; done. Qed.

(** [add_layer] always goes through: a new component is created, appended
    to the layer list and bound to its name. *)
Lemma add_layer_unfold (layer : Layer) (name : option string)
    (transform : option Transform) (offset start_time : float)
    (end_time : option float) (visible : bool)
    (blending_mode : BlendingMode) (origin_point : Direction) (w : World) :
  let l := fresh (dom (heap w)) in
  let name' := default ("layer_" +:+ pretty (length (_layers (self w)))) name in
  add_layer layer name transform offset start_time end_time visible
    blending_mode origin_point w
  = (Returned l,
     set_name_to_layer (insert name' l)
       (set_layers (λ ls, ls ++ [l])
          (set_heap (insert l
             {| Component.name := name';
                Component.layer := layer;
                Component.transform :=
                  default (Transform_centered (_size (self w))) transform;
                Component.offset := offset;
                Component.start_time := start_time;
                Component.end_time := default (Layer_duration layer) end_time;
                Component.visible := visible;
                Component.blending_mode := blending_mode;
                Component.origin_point := origin_point;
                Component.alpha_matte_target := None |}) w))).
Proof.
  intros l name'. unfold add_layer. run_body. fold name'.
  by rewrite name_not_in_layers.
Qed.

(** C3, what the code does instead.  When a layer of the composition
    already carries [name], [add_layer(layer, name=name)] still returns:
    it creates a new component, appends it to the layer list and rebinds
    [name] to it in the index. *)
Theorem add_layer_accepts_taken_name (layer : Layer) (name : string)
    (transform : option Transform) (offset start_time : float)
    (end_time : option float) (visible : bool)
    (blending_mode : BlendingMode) (origin_point : Direction)
    (w : World) (l0 : loc) (c0 : Component.t) :
  l0 ∈ _layers (self w) → heap w !! l0 = Some c0 → Component.name c0 = name →
  ∃ l w' c,
    add_layer layer (Some name) transform offset start_time end_time visible
      blending_mode origin_point w = (Returned l, w')
    ∧ l ≠ l0
    ∧ heap w' !! l = Some c ∧ Component.name c = name
    ∧ heap w' !! l0 = Some c0
    ∧ _layers (self w') = _layers (self w) ++ [l]
    ∧ _name_to_layer (self w') !! name = Some l.
Proof.
  intros Hin Hl0 Hname. rewrite add_layer_unfold.
  assert (fresh (dom (heap w)) ≠ l0) as Hfresh.
  { intros Heq. apply (is_fresh (dom (heap w))). rewrite Heq.
    by apply elem_of_dom. }
  eexists _, _, _. split; [reflexivity|]. simpl.
  split; [done|]. rewrite lookup_insert_eq. split; [reflexivity|].
  split; [done|]. rewrite lookup_insert_ne by done. split; [done|].
  split; [done|]. by rewrite lookup_insert_eq.
Qed.

(** ** Removing layers *)

Lemma next_index_state (name : string) (layers : list loc) (i0 : nat) (w : World) :
  (next_index name layers i0 w).2 = w.
Proof.
  revert i0. induction layers as [|l layers IH]; intros i0; simpl; [done|].
  run_body. destruct (heap w !! l) as [c|]; simpl; [|done].
  case_bool_decide; [done|]. apply IH.
Qed.

Lemma next_index_returned (name : string) (layers : list loc) (i0 i : nat)
    (w w' : World) :
  next_index name layers i0 w = (Returned i, w') →
  ∃ k l c, i = (i0 + k)%nat ∧ layers !! k = Some l ∧ heap w !! l = Some c
    ∧ Component.name c = name
    ∧ ∀ j l' c', (j < k)%nat → layers !! j = Some l' → heap w !! l' = Some c' →
        Component.name c' ≠ name.
Proof.
  revert i0. induction layers as [|l layers IH]; intros i0; simpl; [done|].
  run_body. destruct (heap w !! l) as [c|] eqn:Hl; simpl; [|done].
  case_bool_decide as Hname.
  - intros [= <- <-]. exists 0%nat, l, c. repeat split; try done; lia.
  - intros (k & l' & c' & -> & Hk & Hl' & Hc' & Hfirst)%IH.
    exists (S k), l', c'. repeat split; try done; [lia|].
    intros [|j] l'' c'' Hj; simpl.
    + intros [= <-]. rewrite Hl. by intros [= <-].
    + apply Hfirst. lia.
Qed.

(** When the name index still holds a name that no layer of the list
    carries, the search of [pop_layer] runs off the end of the list. *)
Lemma next_index_absent (name : string) (layers : list loc) (i0 : nat) (w : World) :
  (∀ l, l ∈ layers → ∃ c, heap w !! l = Some c ∧ Component.name c ≠ name) →
  next_index name layers i0 w = (Raised StopIteration, w).
Proof.
  revert i0. induction layers as [|l layers IH]; intros i0 Hall; simpl; [done|].
  run_body. destruct (Hall l) as (c & -> & Hc); [by left|]. simpl.
  rewrite bool_decide_eq_false_2 by done. apply IH.
  intros l' Hl'. apply Hall. by right.
Qed.

Lemma pop_layer_stale_name (name : string) (w : World) :
  is_Some (_name_to_layer (self w) !! name) →
  (∀ l, l ∈ _layers (self w) → ∃ c, heap w !! l = Some c ∧ Component.name c ≠ name) →
  pop_layer name w = (Raised StopIteration, w).
Proof.
  intros [l0 Hl0] Hall. unfold pop_layer. run_body.
  rewrite Hl0. simpl. by rewrite next_index_absent.
Qed.

Lemma pop_layer_returned (name : string) (w w' : World) (popped : loc) :
  pop_layer name w = (Returned popped, w') →
  ∃ i c, _layers (self w) !! i = Some popped
    ∧ heap w !! popped = Some c ∧ Component.name c = name
    ∧ (∀ j l' c', (j < i)%nat → _layers (self w) !! j = Some l' →
         heap w !! l' = Some c' → Component.name c' ≠ name)
    ∧ is_Some (_name_to_layer (self w) !! name)
    ∧ w' = set_layers (delete i) w.
Proof.
  unfold pop_layer. run_body.
  case_bool_decide as Hindex; [done|].
  destruct (next_index name (_layers (self w)) 0 w) as [[i|e] w0] eqn:Hnext; [|done].
  pose proof (next_index_state name (_layers (self w)) 0 w) as Hstate.
  rewrite Hnext in Hstate. simpl in Hstate. subst w0.
  apply next_index_returned in Hnext as (k & l & c & -> & Hk & Hl & Hc & Hfirst).
  simpl. rewrite Hk. run_body. intros [= <- <-].
  exists k, c. repeat split; try done.
  by destruct (_name_to_layer (self w) !! name).
Qed.

(** *** Reachability and the weak index *)

Lemma matte_step_incl (objects : gmap loc Component.t) (live : gset loc) :
  live ⊆ matte_step objects live.
Proof. unfold matte_step. set_solver. Qed.

Lemma iter_matte_step_incl (objects : gmap loc Component.t) (n : nat) (roots : gset loc) :
  roots ⊆ Nat.iter n (matte_step objects) roots.
Proof.
  induction n as [|n IH]; simpl; [done|].
  etrans; [exact IH|]. apply matte_step_incl.
Qed.

Lemma reachable_roots (objects : gmap loc Component.t) (roots : gset loc) (l : loc) :
  l ∈ roots → l ∈ reachable objects roots.
Proof. intros Hl. by apply iter_matte_step_incl. Qed.

Lemma reachable_matte (objects : gmap loc Component.t) (roots : gset loc)
    (l m : loc) (c : Component.t) :
  l ∈ roots → objects !! l = Some c → Component.alpha_matte_target c = Some m →
  m ∈ reachable objects roots.
Proof.
  intros Hl Hc Hm. unfold reachable.
  destruct (size objects) as [|n] eqn:Hsize.
  { apply map_size_empty_inv in Hsize. subst objects. by rewrite lookup_empty in Hc. }
  simpl. unfold matte_step at 1. apply elem_of_union_r, elem_of_list_to_set.
  apply list_elem_of_omap. exists l. split.
  - apply elem_of_elements. by apply iter_matte_step_incl.
  - by rewrite Hc.
Qed.

Lemma getitem_collect (key : string) (held : gset loc) (w : World) :
  __getitem__ key (collect held w)
  = (match _name_to_layer (self w) !! key with
     | Some l =>
         if bool_decide (l ∈ reachable (heap w) (list_to_set (_layers (self w)) ∪ held))
         then Returned l else Raised (KeyError key)
     | None => Raised (KeyError key)
     end, collect held w).
Proof.
  unfold __getitem__. run_body. rewrite map_lookup_filter.
  destruct (_name_to_layer (self w) !! key) as [l|]; simpl; [|done].
  case_bool_decide as Hlive.
  - by rewrite option_guard_True.
  - by rewrite option_guard_False.
Qed.

Lemma enable_alpha_matte_returned (source_name target_name : string)
    (w w'' : World) (source : loc) :
  enable_alpha_matte source_name target_name w = (Returned source, w'') →
  ∃ target w' c,
    pop_layer target_name w = (Returned target, w')
    ∧ _name_to_layer (self w) !! source_name = Some source
    ∧ heap w !! source = Some c
    ∧ w'' = set_heap (insert source
                        (Component.set_alpha_matte_target (Some target) c)) w'.
Proof.
  unfold enable_alpha_matte.
  unfold mbind at 1, M_bind at 1, gets at 1. simpl.
  unfold mbind at 1, M_bind at 1.
  destruct (py_assert _ _ w) as [[[]|e] w0] eqn:Hassert.
  2:{ unfold py_assert in Hassert. destruct (_ && _); [done|].
      by injection Hassert as <- <-. }
  assert (w0 = w) as ->.
  { unfold py_assert in Hassert. destruct (_ && _); by injection Hassert. }
  unfold mbind at 1, M_bind at 1.
  destruct (pop_layer target_name w) as [[target|e] w'] eqn:Hpop; [|done].
  pose proof Hpop as (i & c0 & _ & _ & _ & _ & _ & ->)%pop_layer_returned.
  run_body. unfold __getitem__. run_body.
  destruct (_name_to_layer (self w) !! source_name) as [src|] eqn:Hsrc; [|done].
  simpl. destruct (heap w !! src) as [c|] eqn:Hc; [|done]. simpl.
  unfold Component.enable_alpha_matte.
  destruct (Component.alpha_matte_target c); [done|]. simpl.
  intros [= <- <-]. by exists target, (set_layers (delete i) w), c.
Qed.

(** C9.  What [pop_layer(name)] raises depends on the name index, not on
    the layer list.  For a name the index does not hold it raises the
    [KeyError] of its guard.  For a name the index still holds while no
    layer of the list carries it, as after an earlier [pop_layer(name)]
    whose component is still referenced, it passes the guard and raises
    [StopIteration] from the search of the layer list: not the not-found
    error.  Either way the state is the one before the call, layer list and
    name index included. *)
Theorem pop_layer_unknown_name (name : string) (w : World) :
  (_name_to_layer (self w) !! name = None →
   pop_layer name w
   = (Raised (KeyError ("Layer with name " +:+ name +:+ " does not exist")), w))
  ∧ (is_Some (_name_to_layer (self w) !! name) →
     (∀ l, l ∈ _layers (self w) →
        ∃ c, heap w !! l = Some c ∧ Component.name c ≠ name) →
     pop_layer name w = (Raised StopIteration, w)).
Proof.
  split.
  - intros Hname. unfold pop_layer. run_body. by rewrite bool_decide_eq_true_2.
  - intros Hname Hall. by apply pop_layer_stale_name.
Qed.

(** C4, what the code does instead.  When [pop_layer(name)] returns, the
    first component called [name] is gone from the layer list; the name
    index is as it was.  So [__getitem__(name)] still returns the component
    the index holds under [name], and keeps doing so while the caller holds
    that component; it raises [KeyError] once nothing reaches the component
    any more.  When the names in the layer list were unique, [name] is no
    longer among [keys()].  When the pop is the one [enable_alpha_matte]
    makes for its target, the source holds the popped component from then
    on, and a source in the layer list keeps it alive, whatever the caller
    holds. *)
Theorem pop_layer_keeps_name_index (name : string) (w w' : World) (popped : loc) :
  pop_layer name w = (Returned popped, w') →
  (∃ i c, _layers (self w) !! i = Some popped
     ∧ heap w !! popped = Some c ∧ Component.name c = name
     ∧ (∀ j l' c', (j < i)%nat → _layers (self w) !! j = Some l' →
          heap w !! l' = Some c' → Component.name c' ≠ name)
     ∧ _layers (self w') = delete i (_layers (self w)))
  ∧ _name_to_layer (self w') = _name_to_layer (self w)
  ∧ heap w' = heap w
  ∧ (∃ l0, _name_to_layer (self w) !! name = Some l0
       ∧ __getitem__ name w' = (Returned l0, w')
       ∧ (∀ held : gset loc, l0 ∈ held →
            __getitem__ name (collect held w') = (Returned l0, collect held w'))
       ∧ (∀ held : gset loc,
            l0 ∉ reachable (heap w') (list_to_set (_layers (self w')) ∪ held) →
            __getitem__ name (collect held w')
            = (Raised (KeyError name), collect held w')))
  ∧ (∀ cs, components w = Some cs → NoDup (Component.name <$> cs) →
       ∃ names, keys w' = (Returned names, w') ∧ name ∉ names)
  ∧ (∀ source_name source w'',
       enable_alpha_matte source_name name w = (Returned source, w'') →
       _layers (self w'') = _layers (self w')
       ∧ _name_to_layer (self w'') = _name_to_layer (self w)
       ∧ (∃ c, heap w'' !! source = Some c
            ∧ Component.alpha_matte_target c = Some popped)
       ∧ (∃ l0, __getitem__ name w'' = (Returned l0, w''))
       ∧ (source ∈ _layers (self w'') → ∀ held : gset loc,
            popped ∈ reachable (heap w'') (list_to_set (_layers (self w'')) ∪ held))).
Proof.
  intros Hpop.
  pose proof Hpop as (i & c & Hi & Hc & Hname & Hfirst & [l0 Hl0] & ->)%pop_layer_returned.
  split; [by exists i, c|]. split; [done|]. split; [done|]. split; [|split].
  - exists l0. split; [done|]. split.
    { unfold __getitem__. run_body. by rewrite Hl0. }
    split.
    + intros held Hheld. rewrite getitem_collect. simpl. rewrite Hl0.
      rewrite bool_decide_eq_true_2; [done|].
      apply reachable_roots. set_solver.
    + intros held Hdead. rewrite getitem_collect. simpl. rewrite Hl0.
      by rewrite bool_decide_eq_false_2.
  - intros cs Hcs Hnodup. rewrite keys_unfold.
    assert (components (set_layers (delete i) w) = Some (delete i cs)) as ->.
    { apply mapM_Some. apply mapM_Some in Hcs. simpl. by apply Forall2_delete. }
    eexists. split; [done|].
    assert ((Component.name <$> cs) !! i = Some name) as Hnth.
    { rewrite list_lookup_fmap, (components_lookup w cs i popped c) by done.
      simpl. by rewrite Hname. }
    rewrite list_fmap_delete.
    apply delete_Permutation in Hnth. rewrite Hnth in Hnodup.
    by apply NoDup_cons in Hnodup as [? _].
  - intros source_name source w'' Hmatte.
    apply enable_alpha_matte_returned in Hmatte
      as (target & w1 & cs & Hpop' & Hsrc & Hcs & ->).
    rewrite Hpop in Hpop'. injection Hpop' as <- <-. simpl.
    split; [done|]. split; [done|]. split; [|split].
    + eexists. rewrite lookup_insert_eq. by split.
    + exists l0. unfold __getitem__. run_body. by rewrite Hl0.
    + intros Hin held.
      eapply (reachable_matte _ _ source);
        [set_solver|apply lookup_insert_eq|done].
Qed.

(** ** Item assignment *)

(** C10.  [composition[key] = value] with a component as value returns
    without any check: the component is appended to the layer list and
    [key] is bound to it in the name index, whatever the index held and
    whatever the component is called.  So [__getitem__(key)] returns the
    component even when its name is not [key], and [keys()] gains the
    component's own name, be it already there. *)
Theorem setitem_component_unchecked (key : string) (l : loc) (w : World) :
  let w' := set_name_to_layer (insert key l) (set_layers (λ ls, ls ++ [l]) w) in
  __setitem__ key (ComponentValue l) w = (Returned tt, w')
  ∧ _layers (self w') = _layers (self w) ++ [l]
  ∧ _name_to_layer (self w') = <[key := l]> (_name_to_layer (self w))
  ∧ __getitem__ key w' = (Returned l, w')
  ∧ ∀ c names, heap w !! l = Some c → keys w = (Returned names, w) →
      keys w' = (Returned (names ++ [Component.name c]), w').
Proof.
  intros w'. split; [done|]. split; [done|]. split; [done|]. split.
  { unfold __getitem__. run_body. by rewrite lookup_insert_eq. }
  intros c names Hl. rewrite !keys_unfold.
  destruct (components w) as [cs|] eqn:Hcs; [|done]. intros [= <-].
  assert (components w' = Some (cs ++ [c])) as ->.
  { apply mapM_Some. apply mapM_Some in Hcs. simpl.
    apply Forall2_app; [done|]. by constructor. }
  by rewrite fmap_app.
Qed.

End CompositionProperties.

(** * The model at work in the sample studio *)

Module SampleRuns.
Import Sample Composition.

Lemma sample_keeps_shape : composite_keeps_shape.
Proof.
  intros objects c frame time level. simpl.
  by destruct (Component.is_active c time).
Qed.

Lemma two_layers_alive : layers_alive two_layers.
Proof.
  unfold layers_alive.
  assert (_layers (self two_layers) = [0%nat; 1%nat]) as ->
    by (vm_compute; reflexivity).
  repeat constructor; eexists; vm_compute; reflexivity.
Qed.

(** C1, the claim as stated, refuted: the layer of [hidden_layer] is inside
    its time window at 0.5 and not visible, so it is not active in the
    spec's sense, and still its entry in the key is its sub-key. *)
Lemma get_key_ignores_visible : ¬ key_absent_iff_inactive 0.5%float hidden_layer.
Proof.
  intros (key & Hkey & _ & Hentries).
  assert (get_key 0.5%float hidden_layer
          = (Returned [HTag COMPOSITION; HSub "bg"], hidden_layer)) as Hrun
    by (vm_compute; reflexivity).
  rewrite Hrun in Hkey. injection Hkey as <-.
  edestruct (Hentries 0%nat 0%nat) as [[_ Habsent] _];
    [vm_compute; reflexivity..|].
  discriminate Habsent. vm_compute. reflexivity.
Qed.

Lemma get_key_time_window_witness :
  layers_alive two_layers
  ∧ ∃ key, get_key 0.5%float two_layers = (Returned key, two_layers)
      ∧ key !! 0%nat = Some (HTag COMPOSITION)
      ∧ length key = 3%nat
      ∧ key !! 1%nat = Some (HSub "A")
      ∧ key !! 2%nat = Some HNone.
Proof.
  split; [exact two_layers_alive|].
  destruct (get_key_time_window 0.5%float two_layers two_layers_alive)
    as (key & Hkey & Htag & Hlen & Hentries).
  exists key. split; [exact Hkey|]. split; [exact Htag|]. split; [exact Hlen|].
  split.
  - edestruct (Hentries 0%nat 0%nat) as (_ & Hsub & _);
      [vm_compute; reflexivity..|].
    apply Hsub. vm_compute. reflexivity.
  - edestruct (Hentries 1%nat 1%nat) as (Habsent & _ & _);
      [vm_compute; reflexivity..|].
    apply Habsent. vm_compute. reflexivity.
Defined.

Lemma half_open_time_window_witness :
  layers_alive two_layers
  ∧ key_entry_at 1%float two_layers 1 = Some (HSub "B")
  ∧ key_entry_at 1.75%float two_layers 1 = Some (HSub "B")
  ∧ key_entry_at 0.5%float two_layers 1 = Some HNone
  ∧ key_entry_at 2%float two_layers 1 = Some HNone.
Proof.
  split; [exact two_layers_alive|].
  edestruct (half_open_time_window two_layers 1%nat 1%nat)
    as (Hinside & Hstart & Hbefore & Hend);
    [exact two_layers_alive|vm_compute; reflexivity..|].
  split; [exact Hstart|]. split; [|split; [|exact Hend]].
  - apply Hinside; vm_compute; reflexivity.
  - apply Hbefore; vm_compute; reflexivity.
Defined.

Lemma low_res_cached_alive : layers_alive low_res_cached.
Proof.
  unfold layers_alive.
  assert (_layers (self low_res_cached) = [0%nat; 1%nat]) as ->
    by (vm_compute; reflexivity).
  repeat constructor; eexists; vm_compute; reflexivity.
Qed.

Lemma low_res_cached_rgba : cache_frames_rgba low_res_cached.
Proof.
  intros key frame Hlook. apply elem_of_map_to_list in Hlook.
  eassert (map_to_list (entries (_cache (self low_res_cached))) = _) as Hall
    by (vm_compute; reflexivity).
  rewrite Hall in Hlook. apply list_elem_of_singleton in Hlook.
  injection Hlook as -> ->. by eexists _, _.
Qed.

Lemma call_frame_shape_witness :
  composite_keeps_shape ∧ cache_frames_rgba low_res_cached
  ∧ layers_alive low_res_cached
  ∧ 0 < _preview_level (self low_res_cached)
  ∧ np_zeros [2; 4; 4] = Returned {| shape := [2; 4; 4]; data := replicate 32 0 |}
  ∧ ∃ frame w',
      __call__ 0.5%float low_res_cached = (Returned frame, w')
      ∧ shape frame = [2; 4; 4]
      ∧ entries (_cache (self w')) !! [HTag COMPOSITION; HSub "A"; HNone]
        = Some frame
      ∧ journal (_cache (self w'))
        = [Inserted [HTag COMPOSITION; HSub "A"; HNone];
           Evicted [HTag COMPOSITION; HSub "A"; HNone];
           Inserted [HTag COMPOSITION; HSub "A"; HNone]].
Proof.
  split; [exact sample_keeps_shape|]. split; [exact low_res_cached_rgba|].
  split; [exact low_res_cached_alive|].
  split; [vm_compute; reflexivity|].
  split; [vm_compute; reflexivity|].
  destruct (call_frame_shape 0.5%float low_res_cached
              {| shape := [2; 4; 4]; data := replicate 32 0 |}
              sample_keeps_shape low_res_cached_rgba low_res_cached_alive)
    as (frame & w' & key & Hkey & Hcall & Hshape & _ & Hevict);
    [vm_compute; reflexivity..|].
  exists frame, w'. split; [exact Hcall|]. split; [exact Hshape|].
  pose proof (f_equal fst Hcall) as Hframe. pose proof (f_equal snd Hcall) as Hstate.
  cbn [fst snd] in Hframe, Hstate. rewrite <-Hstate.
  vm_compute in Hframe. injection Hframe as <-.
  split; vm_compute; reflexivity.
Defined.

Lemma call_twice_witness :
  composite_keeps_shape
  ∧ (__call__ 0.5%float two_layers).1
    = Returned {| shape := [2; 4; 4]; data := replicate 32 1 |}
  ∧ entries (_cache (self (run (__call__ 0.5%float) two_layers)))
      !! [HTag COMPOSITION; HSub "A"; HNone]
    = Some {| shape := [2; 4; 4]; data := replicate 32 1 |}
  ∧ __call__ 0.5%float (run (__call__ 0.5%float) two_layers)
    = (Returned {| shape := [2; 4; 4]; data := replicate 32 1 |},
       run (__call__ 0.5%float) two_layers).
Proof.
  assert ((__call__ 0.5%float two_layers).1
          = Returned {| shape := [2; 4; 4]; data := replicate 32 1 |}) as Hframe
    by (vm_compute; reflexivity).
  assert (entries (_cache (self (run (__call__ 0.5%float) two_layers)))
            !! [HTag COMPOSITION; HSub "A"; HNone]
          = Some {| shape := [2; 4; 4]; data := replicate 32 1 |}) as Hkept
    by (vm_compute; reflexivity).
  split; [exact sample_keeps_shape|]. split; [exact Hframe|].
  split; [exact Hkept|].
  destruct (call_twice 0.5%float two_layers (run (__call__ 0.5%float) two_layers)
              {| shape := [2; 4; 4]; data := replicate 32 1 |} sample_keeps_shape)
    as (key & Hkey & _ & Hsilent & _).
  { rewrite <-Hframe. unfold run. apply surjective_pairing. }
  apply (f_equal fst) in Hkey. vm_compute in Hkey. injection Hkey as <-.
  exact (Hsilent Hkept).
Defined.

(** With diskcache's defaults, a first frame of the size of the limit or
    more does not stay in the cache: the volume has reached the limit, and
    the least recently stored entries go, of which it is the only one. *)
Lemma big_frame_is_culled (limit : Z) (key : list Hashable) (frame : ndarray) :
  limit ≤ Z.of_nat (length (data frame)) →
  cull limit [Inserted key] (<[key := frame]> ∅) = ∅.
Proof.
  intros Hbig. change (cull limit [Inserted key] (<[key := frame]> ∅))
    with (cull_least_recently_stored limit [Inserted key] (<[key := frame]> ∅)).
  unfold cull_least_recently_stored. rewrite insert_empty.
  assert (stored_bytes {[key := frame]} = Z.of_nat (length (data frame))) as ->.
  { unfold stored_bytes. rewrite map_fold_singleton. lia. }
  rewrite (proj2 (Z.ltb_ge _ _)) by done.
  assert (store_order [Inserted key] {[key := frame]} = [key]) as ->.
  { unfold store_order, stored_keys.
    change (remove_dups (omap _ [Inserted key])) with [key].
    cbn [List.filter]. by rewrite lookup_singleton_eq. }
  cbn [take foldr]. apply delete_singleton_eq.
Qed.

(** A composition without layers and with an empty new cache, whose zero
    frame is as large as the size limit of the cache: the first render
    stores the frame and the cache culls it at once, so the second render
    finds nothing, computes the frame again and stores it again. *)
Lemma big_frame_rendered_twice (time : float) (w : World) (zeros : ndarray) :
  _layers (self w) = [] → 0 < _preview_level (self w) →
  np_zeros [(_size (self w)).2 `div` _preview_level (self w);
            (_size (self w)).1 `div` _preview_level (self w); 4] = Returned zeros →
  entries (_cache (self w)) = ∅ → journal (_cache (self w)) = [] →
  size_limit (_cache (self w)) ≤ Z.of_nat (length (data zeros)) →
  ¬ second_render_is_silent time w.
Proof.
  intros Hlayers HL Hz Hentries Hjournal Hbig Hsilent.
  set (key := [HTag COMPOSITION]).
  assert (__call__ time w = (Returned zeros, set_cache (Cache_setitem key zeros) w))
    as Hfirst.
  { apply call_without_layers; [done..|]. by rewrite Hentries. }
  specialize (Hsilent _ _ Hfirst).
  set (w1 := set_cache (Cache_setitem key zeros) w) in *.
  assert (entries (_cache (self w1)) = ∅) as Hculled.
  { unfold w1. cbn [set_cache self _cache entries Cache_setitem].
    rewrite Hentries, Hjournal. by apply big_frame_is_culled. }
  assert (entries (_cache (self w1)) !! key = None) as Hmiss
    by (by rewrite Hculled).
  pose proof (call_without_layers time w1 zeros Hlayers HL Hz Hmiss) as Hsecond.
  rewrite Hsecond in Hsilent. apply (f_equal snd) in Hsilent.
  apply (Cache_setitem_changes key zeros w1).
  exact (f_equal (λ w0, journal (_cache (self w0))) Hsilent).
Qed.

Lemma gibibyte_of_zeros_allocated :
  np_zeros [16384; 16384; 4] = Returned gibibyte_of_zeros.
Proof. exact (np_zeros_returns [16384; 16384; 4] eq_refl eq_refl eq_refl eq_refl). Qed.

Lemma gibibyte_of_zeros_size :
  1024 * 1024 * 1024 ≤ Z.of_nat (length (data gibibyte_of_zeros)).
Proof.
  unfold gibibyte_of_zeros. cbn [data].
  rewrite length_replicate, Z2Nat.id; cbn [foldr]; lia.
Qed.

(** C5, refuted as the spec states it.  [Composition(size=(16384, 16384))]
    rendered twice at 0.0: the frame takes 1 GiB, the size limit of the
    cache, so the cache culls it as soon as it is stored and the second
    call inserts it again. *)
Lemma second_render_mutates :
  ¬ second_render_is_silent 0%float one_gibibyte_frames.
Proof.
  apply (big_frame_rendered_twice 0%float one_gibibyte_frames gibibyte_of_zeros).
  - reflexivity.
  - reflexivity.
  - exact gibibyte_of_zeros_allocated.
  - reflexivity.
  - reflexivity.
  - exact gibibyte_of_zeros_size.
Qed.

(** C9 at the failing input: ["B"] is popped and the caller keeps the
    component, then ["B"] is popped again. *)
Lemma pop_layer_unknown_name_witness :
  is_Some (_name_to_layer (self (run (pop_layer "B") two_layers)) !! "B")
  ∧ _layers (self (run (pop_layer "B") two_layers)) = [0%nat]
  ∧ pop_layer "B" (run (pop_layer "B") two_layers)
    = (Raised StopIteration, run (pop_layer "B") two_layers)
  ∧ pop_layer "C" (run (pop_layer "B") two_layers)
    = (Raised (KeyError "Layer with name C does not exist"),
       run (pop_layer "B") two_layers).
Proof.
  assert (is_Some (_name_to_layer (self (run (pop_layer "B") two_layers)) !! "B"))
    as Hheld by (vm_compute; eauto).
  assert (_layers (self (run (pop_layer "B") two_layers)) = [0%nat]) as Hlayers
    by (vm_compute; reflexivity).
  split; [exact Hheld|]. split; [exact Hlayers|].
  destruct (pop_layer_unknown_name "B" (run (pop_layer "B") two_layers))
    as [_ Hstale].
  destruct (pop_layer_unknown_name "C" (run (pop_layer "B") two_layers))
    as [Hguard _].
  split.
  - apply Hstale; [exact Hheld|]. intros l Hl. rewrite Hlayers in Hl.
    apply list_elem_of_singleton in Hl as ->.
    eexists. split; [vm_compute; reflexivity|]. vm_compute. discriminate.
  - apply Hguard. vm_compute. reflexivity.
Defined.

Lemma preview_scope_restores_witness :
  0 < 4
  ∧ (∃ frame, (preview 4 (__call__ 0%float) two_layers).1 = Returned frame
              ∧ shape frame = [0; 1; 4])
  ∧ _preview_level (self (preview 4 (__call__ 0%float) two_layers).2) = 1
  ∧ (preview 4 (raise StopIteration) two_layers).1 = Raised (A := unit) StopIteration
  ∧ _preview_level (self (preview 4 (raise (A := unit) StopIteration) two_layers).2) = 1.
Proof.
  split; [reflexivity|].
  destruct (preview_scope_restores 4 (__call__ 0%float) two_layers)
    as (_ & _ & Hrestored & _); [reflexivity|].
  destruct (preview_scope_restores 4 (raise (A := unit) StopIteration) two_layers)
    as (_ & Hraise & Hrestored' & _); [reflexivity|].
  split; [eexists; split; vm_compute; reflexivity|].
  split; [exact Hrestored|]. split; [by rewrite Hraise|exact Hrestored'].
Defined.

Lemma add_layer_accepts_taken_name_witness :
  0%nat ∈ _layers (self two_layers)
  ∧ ∃ l w',
      add_layer 2%float (Some "A") None 0%float 0%float None true "normal" "center"
        two_layers = (Returned l, w')
      ∧ l ≠ 0%nat
      ∧ _layers (self w') = _layers (self two_layers) ++ [l]
      ∧ _name_to_layer (self w') !! "A" = Some l.
Proof.
  assert (0%nat ∈ _layers (self two_layers)) as Hin.
  { assert (_layers (self two_layers) = [0%nat; 1%nat]) as ->
      by (vm_compute; reflexivity). by left. }
  split; [exact Hin|].
  edestruct (@add_layer_accepts_taken_name collaborators
               2%float "A" None 0%float 0%float None
               true "normal" "center" two_layers 0%nat)
    as (l & w' & c & Hadd & Hne & _ & _ & _ & Hlayers & Hindex);
    [exact Hin|vm_compute; reflexivity..|].
  exists l, w'. by repeat split.
Defined.

Lemma pop_layer_keeps_name_index_witness :
  pop_layer "B" two_layers = (Returned 1%nat, run (pop_layer "B") two_layers)
  ∧ __getitem__ "B" (run (pop_layer "B") two_layers)
    = (Returned 1%nat, run (pop_layer "B") two_layers)
  ∧ __getitem__ "B" (collect {[1%nat]} (run (pop_layer "B") two_layers))
    = (Returned 1%nat, collect {[1%nat]} (run (pop_layer "B") two_layers)).
Proof.
  assert (pop_layer "B" two_layers
          = (Returned 1%nat, run (pop_layer "B") two_layers)) as Hpop
    by (vm_compute; reflexivity).
  split; [exact Hpop|].
  destruct (pop_layer_keeps_name_index "B" two_layers _ _ Hpop)
    as (_ & _ & _ & (l0 & Hl0 & Hget & Hheld & _) & _).
  assert (_name_to_layer (self two_layers) !! "B" = Some 1%nat) as Hone
    by (vm_compute; reflexivity).
  rewrite Hone in Hl0. injection Hl0 as <-.
  split; [exact Hget|]. apply Hheld. by apply elem_of_singleton.
Defined.

(** The two ways the popped name stays behind, run: the caller keeps the
    component [pop_layer] returned, or [enable_alpha_matte] hands it to the
    source.  In the second the caller holds nothing. *)
Example popped_name_still_resolves :
  (c ← pop_layer "B"; __getitem__ "B") two_layers
  = (Returned 1%nat, run (pop_layer "B") two_layers)
  ∧ (__getitem__ "B" (collect ∅ (run (enable_alpha_matte "A" "B") two_layers))).1
    = Returned 1%nat
  ∧ (keys (collect ∅ (run (enable_alpha_matte "A" "B") two_layers))).1
    = Returned ["A"].
Proof. repeat split; vm_compute; reflexivity. Qed.

(** Once the caller lets go of the popped component, the name is gone. *)
Example popped_name_dies_with_component :
  (__getitem__ "B" (collect ∅ (run (pop_layer "B") two_layers))).1
  = Raised (KeyError "B").
Proof. vm_compute. reflexivity. Qed.

(** Popping the same name twice while the first result is held: the guard
    passes on the stale index entry and the search finds nothing. *)
Example pop_layer_twice :
  ((c ← pop_layer "B"; pop_layer "B") two_layers).1 = Raised StopIteration.
Proof. vm_compute. reflexivity. Qed.

(** [add_layer] with the name of an existing layer, run: two layers are
    called "A" afterwards. *)
Example add_layer_twice :
  (keys (run (add_layer 2%float (Some "A") None 0%float 0%float None true
                "normal" "center") two_layers)).1
  = Returned ["A"; "B"; "A"].
Proof. vm_compute. reflexivity. Qed.

End SampleRuns.

(** * Further properties of Composition *)

Section MoreProperties.
Context `{Collaborators} `{!Component.Methods}
        `{machine : !Machine} `{culling : !Culling}.
Import Composition.

Ltac step_body :=
  unfold mbind, M_bind, mret, M_ret, gets, modify, raise, lift, py_assert,
    deref, compose; simpl.

(** ** Helpers *)

Lemma components_delete (w : World) (cs : list Component.t) (i : nat) :
  components w = Some cs →
  components (set_layers (delete i) w) = Some (delete i cs).
Proof.
  intros Hcs. apply mapM_Some. apply mapM_Some in Hcs. simpl.
  by apply Forall2_delete.
Qed.

Lemma components_member (w : World) (cs : list Component.t) (l : loc) :
  components w = Some cs → l ∈ _layers (self w) →
  ∃ c, heap w !! l = Some c ∧ c ∈ cs.
Proof.
  intros Hcs [j Hj]%list_elem_of_lookup. apply mapM_Some in Hcs.
  destruct (Forall2_lookup_l _ _ _ _ _ Hcs Hj) as (c & Hc & Hlc).
  exists c. split; [done|]. by eapply list_elem_of_lookup_2.
Qed.

Lemma name_gone_after_delete {A} (names : list A) (i : nat) (name : A) :
  NoDup names → names !! i = Some name → name ∉ delete i names.
Proof.
  intros Hnodup Hi. apply delete_Permutation in Hi. rewrite Hi in Hnodup.
  by apply NoDup_cons in Hnodup as [? _].
Qed.

Lemma enable_alpha_matte_inv (source_name target_name : string)
    (w w'' : World) (source : loc) :
  enable_alpha_matte source_name target_name w = (Returned source, w'') →
  ∃ target w' c,
    pop_layer target_name w = (Returned target, w')
    ∧ _name_to_layer (self w) !! source_name = Some source
    ∧ heap w !! source = Some c
    ∧ Component.alpha_matte_target c = None
    ∧ w'' = set_heap (insert source
                        (Component.set_alpha_matte_target (Some target) c)) w'.
Proof.
  unfold enable_alpha_matte.
  unfold mbind at 1, M_bind at 1, gets at 1. simpl.
  unfold mbind at 1, M_bind at 1.
  destruct (py_assert _ _ w) as [[[]|e] w0] eqn:Hassert.
  2:{ unfold py_assert in Hassert. destruct (_ && _); [done|].
      by injection Hassert as <- <-. }
  assert (w0 = w) as ->.
  { unfold py_assert in Hassert. destruct (_ && _); by injection Hassert. }
  unfold mbind at 1, M_bind at 1.
  destruct (pop_layer target_name w) as [[target|e] w'] eqn:Hpop; [|done].
  pose proof Hpop as (i & c0 & _ & _ & _ & _ & _ & ->)%pop_layer_returned.
  step_body. unfold __getitem__. step_body.
  destruct (_name_to_layer (self w) !! source_name) as [src|] eqn:Hsrc; [|done].
  simpl. destruct (heap w !! src) as [c|] eqn:Hc; [|done]. simpl.
  unfold Component.enable_alpha_matte.
  destruct (Component.alpha_matte_target c) eqn:Hmatte; [done|]. simpl.
  intros [= <- <-]. by exists target, (set_layers (delete i) w), c.
Qed.

(** ** Removing a layer twice *)

(** X1.  After [pop_layer(name)] has returned in a composition whose layer
    names are unique, a second [pop_layer(name)] does not raise the
    [KeyError] of the guard: the name index still holds the name, the
    search over the layer list finds nothing, and [StopIteration] comes
    out, the state being left as it is. *)
Theorem pop_layer_twice_stops (name : string) (w w' : World) (popped : loc)
    (cs : list Component.t) :
  pop_layer name w = (Returned popped, w') →
  components w = Some cs → NoDup (Component.name <$> cs) →
  pop_layer name w' = (Raised StopIteration, w').
Proof.
  intros Hpop Hcs Hnodup.
  apply pop_layer_returned in Hpop
    as (i & c & Hi & Hc & Hname & _ & Hindex & ->).
  apply pop_layer_stale_name; [done|]. simpl.
  intros l [j Hj]%list_elem_of_lookup.
  pose proof (components_delete w cs i Hcs) as Hcs'.
  apply mapM_Some in Hcs'. simpl in Hcs'.
  destruct (Forall2_lookup_l _ _ _ _ _ Hcs' Hj) as (c' & Hc' & Hlc').
  exists c'. split; [done|]. intros Heq.
  apply (name_gone_after_delete (Component.name <$> cs) i name Hnodup).
  - rewrite list_lookup_fmap, (components_lookup w cs i popped c) by done.
    simpl. by rewrite Hname.
  - rewrite <-list_fmap_delete, <-Heq.
    apply list_elem_of_fmap_2. by eapply list_elem_of_lookup_2.
Qed.

(** ** Adding a layer and finding it again *)

(** X2.  [add_layer] returns a new component under the given name, or under
    ["layer_<n>"] for a composition of [n] layers when no name is given.
    Afterwards [__getitem__] of that name returns the new component,
    [__len__()] is one more, [keys()] is the old list with the name at the
    end, and every component that existed before is unchanged. *)
Theorem add_layer_then_lookup (layer : Layer) (name : option string)
    (transform : option Transform) (offset start_time : float)
    (end_time : option float) (visible : bool)
    (blending_mode : BlendingMode) (origin_point : Direction) (w : World) :
  let name' := default ("layer_" +:+ pretty (length (_layers (self w)))) name in
  ∃ l w',
    add_layer layer name transform offset start_time end_time visible
      blending_mode origin_point w = (Returned l, w')
    ∧ heap w !! l = None
    ∧ __getitem__ name' w' = (Returned l, w')
    ∧ __len__ w' = (Returned (S (length (_layers (self w)))), w')
    ∧ (∀ names, keys w = (Returned names, w) →
         keys w' = (Returned (names ++ [name']), w'))
    ∧ (∀ l0 c0, heap w !! l0 = Some c0 → heap w' !! l0 = Some c0)
    ∧ _cache (self w') = _cache (self w)
    ∧ _preview_level (self w') = _preview_level (self w)
    ∧ _size (self w') = _size (self w).
Proof.
  intros name'. eexists _, _. rewrite add_layer_unfold. fold name'.
  split; [reflexivity|].
  assert (heap w !! fresh (dom (heap w)) = None) as Hfresh.
  { apply not_elem_of_dom. apply is_fresh. }
  split; [done|]. split.
  { unfold __getitem__. step_body. by rewrite lookup_insert_eq. }
  split.
  { unfold __len__. step_body. rewrite length_app. simpl.
    do 2 f_equal. lia. }
  split; [|split; [|done]].
  - intros names. rewrite !keys_unfold.
    destruct (components w) as [cs|] eqn:Hcs; [|done]. intros [= <-].
    match goal with
    | |- context [components ?w1] =>
        eassert (components w1 = Some (cs ++ [_])) as ->
    end.
    { apply mapM_Some. apply mapM_Some in Hcs. simpl.
      apply Forall2_app.
      - eapply Forall2_impl; [exact Hcs|]. intros l0 c0 Hl0. simpl.
        rewrite lookup_insert_ne; [done|]. intros <-. congruence.
      - constructor; [|done]. apply lookup_insert_eq. }
    by rewrite fmap_app.
  - intros l0 c0 Hl0. simpl. rewrite lookup_insert_ne; [done|].
    intros <-. congruence.
Qed.

(** ** Item assignment with a layer, or with something else *)

(** X3.  [composition[key] = layer] with a callable adds it as
    [add_layer(layer, name=key)] does with its defaults: afterwards
    [__getitem__(key)] returns a new component, last in the layer list,
    called [key], wrapping the layer, with offset and start time 0, end
    time [layer.duration], visible, normal blending, centre origin, the
    centred transform and no alpha matte.  With a value that is neither a
    component nor callable the assignment raises [ValueError] and changes
    nothing. *)
Theorem setitem_layer_or_invalid (key : string) (layer : Layer) (w : World) :
  __setitem__ key OtherValue w
  = (Raised (ValueError "value must be Component or Layer (i.e., callable)"), w)
  ∧ ∃ l w',
      __setitem__ key (CallableValue layer) w = (Returned tt, w')
      ∧ heap w !! l = None
      ∧ __getitem__ key w' = (Returned l, w')
      ∧ _layers (self w') = _layers (self w) ++ [l]
      ∧ heap w' !! l
        = Some {| Component.name := key;
                  Component.layer := layer;
                  Component.transform := Transform_centered (_size (self w));
                  Component.offset := 0%float;
                  Component.start_time := 0%float;
                  Component.end_time := Layer_duration layer;
                  Component.visible := true;
                  Component.blending_mode := BlendingMode_NORMAL;
                  Component.origin_point := Direction_CENTER;
                  Component.alpha_matte_target := None |}.
Proof.
  split; [done|]. eexists _, _. unfold __setitem__.
  unfold mbind at 1, M_bind at 1. rewrite add_layer_unfold. simpl.
  split; [reflexivity|]. split.
  { apply not_elem_of_dom. apply is_fresh. }
  split.
  { unfold __getitem__. step_body. by rewrite lookup_insert_eq. }
  split; [done|]. simpl. by rewrite lookup_insert_eq.
Qed.

(** ** Alpha mattes *)

(** X5.  [enable_alpha_matte(source_name, target_name)] with a name the
    name index does not hold fails its assertion before anything is
    popped: the state is unchanged. *)
Theorem enable_alpha_matte_unknown_name (source_name target_name : string)
    (w : World) :
  _name_to_layer (self w) !! source_name = None
  ∨ _name_to_layer (self w) !! target_name = None →
  enable_alpha_matte source_name target_name w
  = (Raised (AssertionError "source and target must be in self.layers"), w).
Proof.
  intros Hmissing. unfold enable_alpha_matte. step_body.
  assert (bool_decide (is_Some (_name_to_layer (self w) !! source_name))
          && bool_decide (is_Some (_name_to_layer (self w) !! target_name))
          = false) as ->; [|done].
  apply andb_false_iff.
  destruct Hmissing as [-> | ->]; [left|right];
    apply bool_decide_eq_false_2; by intros [? ?].
Qed.

(** X6.  After [enable_alpha_matte(source_name, target_name)] has returned,
    [disable_alpha_matte(source_name)] returns the component that was
    popped as target; the components are then as they were before the two
    calls, the name index too, but the target is not put back into the
    layer list. *)
Theorem enable_then_disable_alpha_matte (source_name target_name : string)
    (w w1 : World) (source : loc) :
  enable_alpha_matte source_name target_name w = (Returned source, w1) →
  ∃ target w0 w2,
    pop_layer target_name w = (Returned target, w0)
    ∧ disable_alpha_matte source_name w1 = (Returned (Some target), w2)
    ∧ heap w2 = heap w
    ∧ _name_to_layer (self w2) = _name_to_layer (self w)
    ∧ _layers (self w2) = _layers (self w0)
    ∧ length (_layers (self w2)) = pred (length (_layers (self w))).
Proof.
  intros (target & w0 & c & Hpop & Hsrc & Hc & Hmatte & ->)%enable_alpha_matte_inv.
  pose proof Hpop as (i & c0 & Hi & _ & _ & _ & _ & ->)%pop_layer_returned.
  eexists target, _, _. split; [exact Hpop|].
  unfold disable_alpha_matte, __getitem__. step_body. rewrite Hsrc. simpl.
  rewrite lookup_insert_eq. simpl. split; [reflexivity|]. simpl.
  split.
  { rewrite insert_insert_eq. apply insert_id. rewrite Hc. f_equal.
    destruct c; simpl in *; by subst. }
  split; [done|]. split; [done|].
  rewrite length_delete by (by eexists). lia.
Qed.

(** X7.  [disable_alpha_matte(name)] raises [KeyError] for a name the
    index does not hold, and for a component without alpha matte it
    returns [None]; in both cases the state is unchanged. *)
Theorem disable_alpha_matte_nothing_to_do (name : string) (w : World) :
  (_name_to_layer (self w) !! name = None →
   disable_alpha_matte name w = (Raised (KeyError name), w))
  ∧ (∀ l c, _name_to_layer (self w) !! name = Some l → heap w !! l = Some c →
       Component.alpha_matte_target c = None →
       disable_alpha_matte name w = (Returned None, w)).
Proof.
  split.
  - intros Hname. unfold disable_alpha_matte, __getitem__. step_body.
    by rewrite Hname.
  - intros l c Hname Hl Hmatte. unfold disable_alpha_matte, __getitem__.
    step_body. rewrite Hname. simpl. rewrite Hl. simpl.
    rewrite Hmatte. do 2 f_equal.
    destruct w as [objects comp]. unfold set_heap. simpl in *.
    f_equal. apply insert_id. rewrite Hl. f_equal.
    destruct c; simpl in *; by subst.
Qed.

(** ** Deleting an item nobody holds *)

Lemma reachable_closed (objects : gmap loc Component.t) (roots : gset loc) :
  (∀ l c, l ∈ roots → objects !! l = Some c →
     Component.alpha_matte_target c = None) →
  reachable objects roots = roots.
Proof.
  intros Hclosed.
  assert (matte_step objects roots = roots) as Hstep.
  { apply set_eq. intros x. unfold matte_step. rewrite elem_of_union.
    split; [|by left]. intros [Hx|Hx]; [done|].
    apply elem_of_list_to_set, list_elem_of_omap in Hx as (l & Hl & Hm).
    apply elem_of_elements in Hl.
    destruct (objects !! l) as [c|] eqn:Hc; [|done]. simpl in Hm.
    by rewrite (Hclosed l c Hl Hc) in Hm. }
  unfold reachable. induction (size objects) as [|n IH]; simpl; [done|].
  by rewrite IH.
Qed.

(** X4.  In a composition whose layers are distinct objects with unique
    names, none holding an alpha matte, and whose name index agrees with
    the layer list, [del composition[key]] that returns leaves nothing that
    refers to the removed component: once it is dead, [__getitem__(key)]
    raises [KeyError]. *)
Theorem delitem_then_lookup_fails (key : string) (w w' : World)
    (cs : list Component.t) :
  __delitem__ key w = (Returned tt, w') →
  components w = Some cs →
  NoDup (_layers (self w)) → NoDup (Component.name <$> cs) →
  index_consistent w →
  Forall (λ c, Component.alpha_matte_target c = None) cs →
  __getitem__ key (collect ∅ w') = (Raised (KeyError key), collect ∅ w').
Proof.
  intros Hdel Hcs Hobjects Hnames Hindex Hmattes.
  unfold __delitem__ in Hdel. unfold mbind at 1, M_bind at 1 in Hdel.
  destruct (pop_layer key w) as [[popped|e] w0] eqn:Hpop; [|done].
  injection Hdel as ->.
  apply pop_layer_returned in Hpop
    as (i & c & Hi & Hc & Hname & _ & [l0 Hl0] & ->).
  assert (l0 = popped) as ->.
  { destruct (Hindex key l0 Hl0) as ([j Hj]%list_elem_of_lookup & c0 & Hc0 & Hname0).
    assert (i = j) as ->; [|congruence].
    apply (NoDup_lookup (Component.name <$> cs) i j key Hnames).
    - rewrite list_lookup_fmap, (components_lookup w cs i popped c) by done.
      simpl. by rewrite Hname.
    - rewrite list_lookup_fmap, (components_lookup w cs j l0 c0) by done.
      simpl. by rewrite Hname0. }
  rewrite getitem_collect. simpl. rewrite Hl0.
  rewrite bool_decide_eq_false_2; [done|].
  rewrite reachable_closed.
  - rewrite elem_of_union, elem_of_list_to_set. intros [Hin|Hin].
    + by apply (name_gone_after_delete (_layers (self w)) i popped).
    + by apply not_elem_of_empty in Hin.
  - intros l c' Hl Hc'.
    rewrite elem_of_union, elem_of_list_to_set in Hl.
    destruct Hl as [Hl|Hl]; [|by apply not_elem_of_empty in Hl].
    apply list_elem_of_delete_inv in Hl.
    destruct (components_member w cs l Hcs Hl) as (c'' & Hc'' & Hin).
    assert (c'' = c') as -> by congruence.
    by apply (proj1 (Forall_forall _ cs) Hmattes).
Qed.

(** ** More on rendering *)

Lemma call_same_but_cache (time : float) (w : World) :
  same_but_cache w (__call__ time w).2.
Proof.
  rewrite call_unfold. unfold same_but_cache.
  destruct (floordiv _ _); [|done].
  destruct (floordiv _ _); [|done].
  destruct (components w); [|done]. simpl.
  destruct (entries _ !! _); [destruct (bool_decide _); [done|]|];
    by destruct (np_zeros _).
Qed.

Lemma call_returns_rgba (time : float) (w : World) (zeros : ndarray) :
  composite_keeps_shape → cache_frames_rgba w → layers_alive w →
  0 < _preview_level (self w) →
  np_zeros [(_size (self w)).2 `div` _preview_level (self w);
            (_size (self w)).1 `div` _preview_level (self w); 4] = Returned zeros →
  ∃ frame w',
    __call__ time w = (Returned frame, w')
    ∧ shape frame = [(_size (self w)).2 `div` _preview_level (self w);
                     (_size (self w)).1 `div` _preview_level (self w); 4]
    ∧ cache_frames_rgba w'.
Proof.
  intros Hkeep Hcache Hw HL Hz.
  destruct (components_alive w Hw) as [cs Hcs].
  set (height := (_size (self w)).2 `div` _preview_level (self w)) in *.
  set (width := (_size (self w)).1 `div` _preview_level (self w)) in *.
  pose proof (call_unfold time w) as Hcall.
  rewrite Hcs, !floordiv_pos in Hcall by done.
  fold height width in Hcall. rewrite Hz in Hcall. cbv zeta in Hcall.
  set (key := HTag COMPOSITION :: (key_entry (heap w) time <$> cs)) in Hcall.
  set (fresh_frame :=
         composite_all (heap w) time (_preview_level (self w)) cs zeros) in Hcall.
  assert (shape fresh_frame = [height; width; 4]) as Hfs.
  { unfold fresh_frame. rewrite composite_all_shape by done.
    by apply np_zeros_shape. }
  assert (∀ w0 : World,
            (∀ k f, entries (_cache (self w0)) !! k = Some f →
                    ∃ h' w', shape f = [h'; w'; 4]) →
            cache_frames_rgba (set_cache (Cache_setitem key fresh_frame) w0)) as Hins.
  { intros w0 Hw0 k f Hk.
    apply (Cache_setitem_lookup key k fresh_frame f) in Hk as [[-> ->]|[_ Hk]];
      [eauto|]. by eapply Hw0. }
  destruct (entries (_cache (self w)) !! key) as [cached|] eqn:Hhit.
  - destruct (decide (take 2 (shape cached) = [height; width])) as [Hshape|Hshape].
    + rewrite bool_decide_eq_true_2 in Hcall by done.
      exists cached, w. split; [done|]. split; [|done].
      destruct (Hcache _ _ Hhit) as (h' & w' & Hs). rewrite Hs in Hshape |- *.
      simpl in Hshape. congruence.
    + rewrite bool_decide_eq_false_2 in Hcall by done.
      eexists fresh_frame, _. split; [exact Hcall|]. split; [done|].
      apply Hins. intros k f. simpl.
      rewrite lookup_delete. case_decide; [done|]. apply Hcache.
  - eexists fresh_frame, _. split; [exact Hcall|]. split; [done|].
    by apply Hins.
Qed.

(** X8.  The cache is keyed by the key alone.  When [__call__(t1)] has
    returned a frame that the cache still holds under the key of the call,
    and [get_key(t2)] is that key, [__call__(t2)] in the state the first
    call left returns that same frame and leaves the state, cache included,
    as it is: the layers are not composited at [t2]. *)
Theorem same_key_same_frame (t1 t2 : float) (w w1 : World) (frame : ndarray)
    (key : list Hashable) :
  composite_keeps_shape →
  __call__ t1 w = (Returned frame, w1) →
  (get_key t1 w).1 = Returned key →
  (get_key t2 w).1 = Returned key →
  entries (_cache (self w1)) !! key = Some frame →
  __call__ t2 w1 = (Returned frame, w1).
Proof.
  intros Hkeep Hcall Hkey1 Hkey2 Hkept. rewrite call_unfold in Hcall.
  rewrite get_key_unfold in Hkey1, Hkey2.
  destruct (floordiv (_size (self w)).2 _) as [height|] eqn:Hh; [|done].
  destruct (floordiv (_size (self w)).1 _) as [width|] eqn:Hwd; [|done].
  destruct (components w) as [cs|] eqn:Hcs; [|done]. simpl in Hcall, Hkey1, Hkey2.
  injection Hkey1 as Hkey1. injection Hkey2 as Hkey2.
  rewrite Hkey1 in Hcall.
  assert (∀ w0 : World,
            heap w0 = heap w → _layers (self w0) = _layers (self w) →
            _preview_level (self w0) = _preview_level (self w) →
            _size (self w0) = _size (self w) →
            entries (_cache (self w0)) !! key = Some frame →
            take 2 (shape frame) = [height; width] →
            __call__ t2 w0 = (Returned frame, w0)) as Hhit2.
  { intros w0 Hheap Hlayers Hlevel Hsize Hlook Hshape.
    rewrite call_unfold. unfold components.
    rewrite Hheap, Hlayers, Hlevel, Hsize, Hh, Hwd. fold (components w).
    rewrite Hcs. simpl. rewrite Hkey2, Hlook.
    by rewrite bool_decide_eq_true_2. }
  assert (∀ zeros, np_zeros [height; width; 4] = Returned zeros →
            take 2 (shape (composite_all (heap w) t1 (_preview_level (self w))
                             cs zeros)) = [height; width]) as Hnew.
  { intros zeros Hz.
    by rewrite composite_all_shape, (np_zeros_shape _ _ Hz). }
  destruct (entries (_cache (self w)) !! key) as [cached|] eqn:Hhit.
  - case_bool_decide as Hshape.
    + injection Hcall as <- <-. by apply Hhit2.
    + destruct (np_zeros [height; width; 4]) as [zeros|] eqn:Hz; [|done].
      injection Hcall as <- <-.
      apply Hhit2; try done. by apply Hnew.
  - destruct (np_zeros [height; width; 4]) as [zeros|] eqn:Hz; [|done].
    injection Hcall as <- <-.
    apply Hhit2; try done. by apply Hnew.
Qed.

(** X9.  When the zero accumulators of the two resolutions can be
    allocated, rendering inside [with preview(level)] gives a frame of the
    reduced resolution [(height // level, width // level, 4)], and rendering
    the same time right after the scope gives a frame of the resolution of
    the preview level from before the scope, whether or not the reduced
    frame still sits in the cache under the same key. *)
Theorem preview_render_then_full_render (time : float) (level : Z) (w : World)
    (small large : ndarray) :
  composite_keeps_shape → cache_frames_rgba w → layers_alive w →
  0 < level → 0 < _preview_level (self w) →
  np_zeros [(_size (self w)).2 `div` level; (_size (self w)).1 `div` level; 4]
  = Returned small →
  np_zeros [(_size (self w)).2 `div` _preview_level (self w);
            (_size (self w)).1 `div` _preview_level (self w); 4]
  = Returned large →
  ∃ reduced w1 full w2,
    preview level (__call__ time) w = (Returned reduced, w1)
    ∧ shape reduced
      = [(_size (self w)).2 `div` level; (_size (self w)).1 `div` level; 4]
    ∧ __call__ time w1 = (Returned full, w2)
    ∧ shape full
      = [(_size (self w)).2 `div` _preview_level (self w);
         (_size (self w)).1 `div` _preview_level (self w); 4]
    ∧ _preview_level (self w2) = _preview_level (self w).
Proof.
  intros Hkeep Hcache Hw Hlevel HL Hsmall Hlarge.
  destruct (call_returns_rgba time (set_preview_level level w) small)
    as (reduced & w0 & Hcall & Hshape & Hcache0); try done.
  pose proof (call_same_but_cache time (set_preview_level level w)) as Hsame.
  rewrite Hcall in Hsame. simpl in Hsame.
  destruct Hsame as (Hheap & Hlayers & _ & Hsize & _ & _).
  set (w1 := set_preview_level (_preview_level (self w)) w0).
  destruct (call_returns_rgba time w1 large) as (full & w2 & Hcall2 & Hshape2 & _);
    try done.
  { unfold layers_alive, w1. simpl. by rewrite Hheap, Hlayers. }
  { unfold w1. simpl. by rewrite Hsize. }
  exists reduced, w1, full, w2. split.
  { unfold preview. step_body. rewrite bool_decide_eq_true_2 by done. simpl.
    unfold try_finally. by rewrite Hcall. }
  split; [exact Hshape|]. split; [exact Hcall2|]. split.
  { rewrite Hshape2. unfold w1. simpl. by rewrite Hsize. }
  pose proof (call_same_but_cache time w1) as Hsame2.
  rewrite Hcall2 in Hsame2. simpl in Hsame2.
  by destruct Hsame2 as (_ & _ & _ & _ & _ & ->).
Qed.

(** X13.  A composition without layers renders to the fully transparent
    frame: with a positive preview level, nothing cached under the bare key
    and a zero accumulator of the working resolution that can be allocated,
    [__call__] returns that accumulator, the all-zero array of the working
    resolution, and hands it to the cache under the bare key; whatever the
    cache then holds under that key is this frame. *)
Theorem render_without_layers (time : float) (w : World) (zeros : ndarray) :
  _layers (self w) = [] →
  0 < _preview_level (self w) →
  entries (_cache (self w)) !! [HTag COMPOSITION] = None →
  let height := (_size (self w)).2 `div` _preview_level (self w) in
  let width := (_size (self w)).1 `div` _preview_level (self w) in
  np_zeros [height; width; 4] = Returned zeros →
  __call__ time w
  = (Returned zeros, set_cache (Cache_setitem [HTag COMPOSITION] zeros) w)
  ∧ shape zeros = [height; width; 4]
  ∧ data zeros = replicate (Z.to_nat (height * (width * 4))) 0
  ∧ ∀ f, entries (_cache (self (__call__ time w).2)) !! [HTag COMPOSITION] = Some f →
      f = zeros.
Proof.
  intros Hlayers HL Hmiss height width Hz.
  pose proof (call_without_layers time w zeros Hlayers HL Hz Hmiss) as Hcall.
  split; [exact Hcall|]. split; [by apply np_zeros_shape|]. split.
  { rewrite (np_zeros_data _ _ Hz). cbn [foldr]. by rewrite Z.mul_1_r. }
  intros f. rewrite Hcall. cbn [snd]. intros Hf.
  by apply (Cache_setitem_lookup [HTag COMPOSITION] [HTag COMPOSITION] zeros f)
    in Hf as [[_ ->]|[? _]].
Qed.

(** ** The accessors *)

Lemma items_loop (layers : list loc) (w : World) :
  mapM (M := M World) (λ l, c ← deref l; mret (Component.name c, l)) layers w
  = (match mapM (heap w !!.) layers with
     | Some cs => Returned (zip (Component.name <$> cs) layers)
     | None => Raised Stuck
     end, w).
Proof.
  set (f := λ l : loc, c ← deref l; mret (Component.name c, l)).
  induction layers as [|l layers IH]; [done|].
  change (mapM f (l :: layers) w)
    with ((y ← f l; k ← mapM f layers; mret (y :: k)) w).
  unfold mbind at 1, M_bind at 1.
  assert (f l w = (match heap w !! l with
                   | Some c => Returned (Component.name c, l)
                   | None => Raised Stuck
                   end, w)) as ->.
  { unfold f. step_body. by destruct (heap w !! l). }
  simpl. destruct (heap w !! l) as [c|]; simpl; [|done].
  unfold mbind at 1, M_bind at 1. rewrite IH.
  by destruct (mapM (heap w !!.) layers).
Qed.

(** X10.  [keys()], [values()], [items()] and [__len__()] describe the
    same list: [values()] is the layer list, [keys()] the names of its
    components in the same order, [items()] pairs them position by
    position, and [__len__()] is their common length; none of them changes
    the state. *)
Theorem accessors_agree (w : World) :
  layers_alive w →
  ∃ names,
    keys w = (Returned names, w)
    ∧ values w = (Returned (_layers (self w)), w)
    ∧ items w = (Returned (zip names (_layers (self w))), w)
    ∧ __len__ w = (Returned (length names), w)
    ∧ (∀ i l c, _layers (self w) !! i = Some l → heap w !! l = Some c →
         names !! i = Some (Component.name c)).
Proof.
  intros Hw. destruct (components_alive w Hw) as [cs Hcs].
  exists (Component.name <$> cs). split; [by rewrite keys_unfold, Hcs|].
  split; [done|]. split.
  { unfold items. unfold mbind at 1, M_bind at 1, gets at 1. simpl.
    rewrite items_loop. fold (components w). by rewrite Hcs. }
  split.
  { unfold __len__. step_body.
    by rewrite length_fmap, (components_length w cs). }
  intros i l c Hi Hl.
  by rewrite list_lookup_fmap, (components_lookup w cs i l c).
Qed.

(** ** The setters *)

Lemma is_nan_Prim2SF (x : float) : is_nan x = true → Prim2SF x = S754_nan.
Proof.
  unfold is_nan. rewrite FloatAxioms.eqb_spec. unfold SFeqb.
  destruct (Prim2SF x) as [s|s| |s m e]; simpl; try done.
  - by destruct s.
  - rewrite Z.compare_refl, Pos.compare_cont_refl. by destruct s.
Qed.

Lemma ltb_nan_r (x y : float) : is_nan y = true → (x <? y)%float = false.
Proof.
  intros Hy%is_nan_Prim2SF. rewrite ltb_spec, Hy. unfold SFltb.
  by destruct (Prim2SF x).
Qed.

(** X12.  The setters validate before they assign.  [size] with a
    component that is not positive, and [duration] with a value that is
    NaN, zero or negative, raise [AssertionError] and leave the state as it
    is; a positive size or duration replaces the old one and nothing else,
    the cache staying as it was. *)
Theorem setters_validate (new_size : Z * Z) (new_duration : float) (w : World) :
  (new_size.1 ≤ 0 ∨ new_size.2 ≤ 0 →
   size_setter new_size w = (Raised (AssertionError ""), w))
  ∧ (0 < new_size.1 → 0 < new_size.2 →
     size_setter new_size w = (Returned tt, set_size new_size w))
  ∧ (is_nan new_duration = true ∨ (new_duration <=? 0)%float = true →
     duration_setter new_duration w = (Raised (AssertionError ""), w))
  ∧ ((0 <? new_duration)%float = true →
     duration_setter new_duration w = (Returned tt, set_duration new_duration w))
  ∧ _cache (self (set_size new_size w)) = _cache (self w)
  ∧ _cache (self (set_duration new_duration w)) = _cache (self w).
Proof.
  split; [|split; [|split; [|split; [|done]]]].
  - intros Hbad. unfold size_setter. step_body.
    destruct Hbad.
    + by rewrite (bool_decide_eq_false_2 (0 < new_size.1)) by lia.
    + rewrite (bool_decide_eq_false_2 (0 < new_size.2)) by lia.
      by rewrite andb_false_r.
  - intros H1 H2. unfold size_setter. step_body.
    by rewrite !bool_decide_eq_true_2.
  - intros Hbad. unfold duration_setter. step_body.
    destruct Hbad as [Hnan|Hle].
    + by rewrite (ltb_nan_r 0 new_duration Hnan).
    + by rewrite (Time.leb_ltb_false _ _ Hle).
  - intros Hpos. unfold duration_setter. step_body. by rewrite Hpos.
Qed.

(** ** Nested scopes *)

(** X14.  [with preview(level): with final(): body] runs the body at
    preview level 1.  When the body returns, the preview level read right
    after the inner scope is [level] again; after the outer scope it is
    the level from before, whatever the body did, raising included. *)
Theorem nested_scopes_restore {A} (level : Z) (body : M World A) (w : World) :
  0 < level →
  let inner := set_preview_level 1 (set_preview_level level w) in
  _preview_level (self inner) = 1
  ∧ _preview_level (self (preview level (final body) w).2)
    = _preview_level (self w)
  ∧ (∀ a w_body, body inner = (Returned a, w_body) →
       preview level (final body;; preview_level) w
       = (Returned level,
          set_preview_level (_preview_level (self w))
            (set_preview_level level w_body)))
  ∧ (∀ e w_body, body inner = (Raised e, w_body) →
       preview level (final body;; preview_level) w
       = (Raised e,
          set_preview_level (_preview_level (self w))
            (set_preview_level level w_body))).
Proof.
  intros Hlevel inner. split; [done|].
  unfold preview, final, preview_level. step_body.
  rewrite bool_decide_eq_true_2 by done. simpl.
  unfold try_finally. step_body. fold inner.
  destruct (body inner) as [[a|e] w_body] eqn:Hbody; simpl.
  - split; [done|]. split; [|done]. by intros a' w' [= <- <-].
  - split; [done|]. split; [done|]. by intros e' w' [= <- <-].
Qed.

(** ** The export loop *)



Local Abbreviation append_frame :=
  (λ (t : float) (appended : list ndarray),
     frame ← __call__ t; mret (appended ++ [frame])).






(** ** Layer changes and the cache key *)

Lemma get_key_length (time : float) (w : World) (key : list Hashable) (w0 : World) :
  get_key time w = (Returned key, w0) →
  length key = S (length (_layers (self w))).
Proof.
  rewrite get_key_unfold. destruct (components w) as [cs|] eqn:Hcs; [|done].
  intros [= <- <-]. simpl. by rewrite length_fmap, (components_length w cs).
Qed.

(** X16.  The key has one entry per layer.  [add_layer] and [pop_layer]
    leave the cache as it is, and a key computed in the state right after
    one of them has returned has another length than every key computed in
    the state right before, at whatever times: it is another key. *)
Theorem layer_change_changes_key (layer : Layer) (new_name : option string)
    (transform : option Transform) (offset start_time : float)
    (end_time : option float) (visible : bool)
    (blending_mode : BlendingMode) (origin_point : Direction)
    (name : string) (w w' : World) (l : loc) :
  add_layer layer new_name transform offset start_time end_time visible
    blending_mode origin_point w = (Returned l, w')
  ∨ pop_layer name w = (Returned l, w') →
  _cache (self w') = _cache (self w)
  ∧ ∀ t t' key key',
      get_key t w = (Returned key, w) → get_key t' w' = (Returned key', w') →
      length key' ≠ length key ∧ key' ≠ key.
Proof.
  intros Hchange.
  assert (_cache (self w') = _cache (self w)
          ∧ length (_layers (self w')) ≠ length (_layers (self w))) as [Hcache Hlen].
  { destruct Hchange as [Hadd|Hpop].
    - rewrite add_layer_unfold in Hadd. injection Hadd as <- <-. simpl.
      split; [done|]. rewrite length_app. simpl. lia.
    - apply pop_layer_returned in Hpop as (i & c & Hi & _ & _ & _ & _ & ->).
      simpl. split; [done|]. rewrite length_delete by (by eexists).
      apply lookup_lt_Some in Hi. lia. }
  split; [done|]. intros t t' key key' Hkey Hkey'.
  apply get_key_length in Hkey. apply get_key_length in Hkey'.
  assert (length key' ≠ length key) as Hne by lia.
  split; [done|]. intros ->. done.
Qed.

(** ** A component as its own alpha matte *)

(** X15.  [enable_alpha_matte(name, name)] is not refused.  When [name]
    leads, in the index and in the layer list, to one component without
    alpha matte, the call returns that component, which is then its own
    alpha-matte target and, the layers being distinct objects, no longer
    in the layer list. *)
Theorem enable_alpha_matte_on_itself (name : string) (w w0 : World)
    (l : loc) (c : Component.t) :
  pop_layer name w = (Returned l, w0) →
  _name_to_layer (self w) !! name = Some l →
  heap w !! l = Some c → Component.alpha_matte_target c = None →
  NoDup (_layers (self w)) →
  ∃ w'',
    enable_alpha_matte name name w = (Returned l, w'')
    ∧ heap w'' !! l = Some (Component.set_alpha_matte_target (Some l) c)
    ∧ (l ∉ _layers (self w''))
    ∧ __getitem__ name w'' = (Returned l, w'').
Proof.
  intros Hpop Hindex Hc Hmatte Hdistinct.
  pose proof Hpop as (i & c0 & Hi & _ & _ & _ & _ & ->)%pop_layer_returned.
  eexists. split.
  { unfold enable_alpha_matte.
    unfold mbind at 1, M_bind at 1, gets at 1. simpl. rewrite Hindex.
    rewrite (bool_decide_eq_true_2 (is_Some (Some l))) by (by eexists). simpl.
    unfold mbind at 1, M_bind at 1. simpl.
    unfold mbind at 1, M_bind at 1. rewrite Hpop.
    unfold __getitem__. step_body. rewrite Hindex. simpl. rewrite Hc. simpl.
    unfold Component.enable_alpha_matte. rewrite Hmatte. reflexivity. }
  simpl. split; [by rewrite lookup_insert_eq|]. split.
  - by apply (name_gone_after_delete (_layers (self w)) i l).
  - unfold __getitem__. step_body. by rewrite Hindex.
Qed.

End MoreProperties.

(** * The further properties at work in the sample studio *)

Module MoreRuns.
Import Sample Composition.

Lemma two_layers_components :
  components two_layers
  = Some [ {| Component.name := "A"; Component.layer := 2%float;
              Component.transform := (4, 2); Component.offset := 0%float;
              Component.start_time := 0%float; Component.end_time := 2%float;
              Component.visible := true; Component.blending_mode := "normal";
              Component.origin_point := "center";
              Component.alpha_matte_target := None |} : Component.t;
           {| Component.name := "B"; Component.layer := 2%float;
              Component.transform := (4, 2); Component.offset := 0%float;
              Component.start_time := 1%float; Component.end_time := 2%float;
              Component.visible := true; Component.blending_mode := "normal";
              Component.origin_point := "center";
              Component.alpha_matte_target := None |} ].
Proof. vm_compute. reflexivity. Qed.

Lemma two_layers_names_unique :
  ∀ cs, components two_layers = Some cs → NoDup (Component.name <$> cs).
Proof.
  intros cs. rewrite two_layers_components. intros [= <-]. simpl.
  apply (bool_decide_unpack _). vm_compute. exact I.
Qed.

Lemma two_layers_distinct : NoDup (_layers (self two_layers)).
Proof.
  assert (_layers (self two_layers) = [0%nat; 1%nat]) as ->
    by (vm_compute; reflexivity).
  apply (bool_decide_unpack _). vm_compute. exact I.
Qed.

Lemma two_layers_consistent : index_consistent two_layers.
Proof.
  intros key l Hlook. apply elem_of_map_to_list in Hlook.
  assert (map_to_list (_name_to_layer (self two_layers))
          = [("A", 0%nat); ("B", 1%nat)]) as Hall by (vm_compute; reflexivity).
  rewrite Hall in Hlook.
  assert (_layers (self two_layers) = [0%nat; 1%nat]) as ->
    by (vm_compute; reflexivity).
  apply elem_of_cons in Hlook as [[= -> ->]|Hlook].
  { split; [by left|]. eexists. split; vm_compute; reflexivity. }
  apply list_elem_of_singleton in Hlook as [= -> ->].
  split; [by right; left|]. eexists. split; vm_compute; reflexivity.
Qed.

Lemma two_layers_cache_rgba : cache_frames_rgba two_layers.
Proof.
  intros key frame.
  assert (_cache (self two_layers) = Cache_new (1024 * 1024 * 1024)) as ->.
  { unfold two_layers, run. by rewrite !add_layer_unfold. }
  simpl. by rewrite lookup_empty.
Qed.

Lemma pop_layer_twice_stops_witness :
  pop_layer "B" two_layers = (Returned 1%nat, run (pop_layer "B") two_layers)
  ∧ pop_layer "B" (run (pop_layer "B") two_layers)
    = (Raised StopIteration, run (pop_layer "B") two_layers).
Proof.
  assert (pop_layer "B" two_layers
          = (Returned 1%nat, run (pop_layer "B") two_layers)) as Hpop
    by (vm_compute; reflexivity).
  split; [exact Hpop|].
  exact (pop_layer_twice_stops "B" two_layers _ 1%nat _ Hpop
           two_layers_components
           (two_layers_names_unique _ two_layers_components)).
Defined.

Lemma delitem_then_lookup_fails_witness :
  __delitem__ "B" two_layers = (Returned tt, run (__delitem__ "B") two_layers)
  ∧ NoDup (_layers (self two_layers))
  ∧ index_consistent two_layers
  ∧ __getitem__ "B" (collect ∅ (run (__delitem__ "B") two_layers))
    = (Raised (KeyError "B"), collect ∅ (run (__delitem__ "B") two_layers)).
Proof.
  assert (__delitem__ "B" two_layers
          = (Returned tt, run (__delitem__ "B") two_layers)) as Hdel
    by (vm_compute; reflexivity).
  split; [exact Hdel|]. split; [exact two_layers_distinct|].
  split; [exact two_layers_consistent|].
  apply (delitem_then_lookup_fails "B" two_layers _ _ Hdel
           two_layers_components two_layers_distinct
           (two_layers_names_unique _ two_layers_components)
           two_layers_consistent).
  repeat constructor.
Defined.

Lemma enable_alpha_matte_unknown_name_witness :
  _name_to_layer (self two_layers) !! "C" = None
  ∧ enable_alpha_matte "A" "C" two_layers
    = (Raised (AssertionError "source and target must be in self.layers"),
       two_layers).
Proof.
  assert (_name_to_layer (self two_layers) !! "C" = None) as Hmissing
    by (vm_compute; reflexivity).
  split; [exact Hmissing|].
  apply enable_alpha_matte_unknown_name. by right.
Defined.

Lemma enable_then_disable_alpha_matte_witness :
  enable_alpha_matte "A" "B" two_layers
  = (Returned 0%nat, run (enable_alpha_matte "A" "B") two_layers)
  ∧ ∃ w2,
      disable_alpha_matte "A" (run (enable_alpha_matte "A" "B") two_layers)
      = (Returned (Some 1%nat), w2)
      ∧ heap w2 = heap two_layers
      ∧ length (_layers (self w2)) = 1%nat.
Proof.
  assert (enable_alpha_matte "A" "B" two_layers
          = (Returned 0%nat, run (enable_alpha_matte "A" "B") two_layers))
    as Henable by (vm_compute; reflexivity).
  split; [exact Henable|].
  destruct (enable_then_disable_alpha_matte "A" "B" two_layers _ 0%nat Henable)
    as (target & w0 & w2 & Hpop & Hdisable & Hheap & _ & _ & Hlen).
  assert (pop_layer "B" two_layers
          = (Returned 1%nat, run (pop_layer "B") two_layers)) as Hpop'
    by (vm_compute; reflexivity).
  rewrite Hpop' in Hpop. injection Hpop as <- <-.
  exists w2. split; [exact Hdisable|]. split; [exact Hheap|].
  rewrite Hlen. vm_compute. reflexivity.
Defined.

Lemma same_key_same_frame_witness :
  composite_keeps_shape
  ∧ (__call__ 0.25%float two_layers).1
    = Returned {| shape := [2; 4; 4]; data := replicate 32 1 |}
  ∧ (get_key 0.25%float two_layers).1 = Returned [HTag COMPOSITION; HSub "A"; HNone]
  ∧ (get_key 0.5%float two_layers).1 = Returned [HTag COMPOSITION; HSub "A"; HNone]
  ∧ entries (_cache (self (run (__call__ 0.25%float) two_layers)))
      !! [HTag COMPOSITION; HSub "A"; HNone]
    = Some {| shape := [2; 4; 4]; data := replicate 32 1 |}
  ∧ __call__ 0.5%float (run (__call__ 0.25%float) two_layers)
    = (Returned {| shape := [2; 4; 4]; data := replicate 32 1 |},
       run (__call__ 0.25%float) two_layers).
Proof.
  assert ((__call__ 0.25%float two_layers).1
          = Returned {| shape := [2; 4; 4]; data := replicate 32 1 |}) as Hframe
    by (vm_compute; reflexivity).
  assert ((get_key 0.25%float two_layers).1
          = Returned [HTag COMPOSITION; HSub "A"; HNone]) as Hkey1
    by (vm_compute; reflexivity).
  assert ((get_key 0.5%float two_layers).1
          = Returned [HTag COMPOSITION; HSub "A"; HNone]) as Hkey2
    by (vm_compute; reflexivity).
  assert (entries (_cache (self (run (__call__ 0.25%float) two_layers)))
            !! [HTag COMPOSITION; HSub "A"; HNone]
          = Some {| shape := [2; 4; 4]; data := replicate 32 1 |}) as Hkept
    by (vm_compute; reflexivity).
  split; [exact SampleRuns.sample_keeps_shape|]. split; [exact Hframe|].
  split; [exact Hkey1|]. split; [exact Hkey2|]. split; [exact Hkept|].
  refine (same_key_same_frame 0.25%float 0.5%float two_layers _ _ _
            SampleRuns.sample_keeps_shape _ Hkey1 Hkey2 Hkept).
  rewrite <-Hframe. unfold run. apply surjective_pairing.
Defined.

Lemma preview_render_then_full_render_witness :
  composite_keeps_shape ∧ cache_frames_rgba two_layers ∧ layers_alive two_layers
  ∧ 0 < 2 ∧ 0 < _preview_level (self two_layers)
  ∧ np_zeros [1; 2; 4] = Returned {| shape := [1; 2; 4]; data := replicate 8 0 |}
  ∧ np_zeros [2; 4; 4] = Returned {| shape := [2; 4; 4]; data := replicate 32 0 |}
  ∧ ∃ reduced w1 full w2,
      preview 2 (__call__ 0.5%float) two_layers = (Returned reduced, w1)
      ∧ shape reduced = [1; 2; 4]
      ∧ __call__ 0.5%float w1 = (Returned full, w2)
      ∧ shape full = [2; 4; 4].
Proof.
  split; [exact SampleRuns.sample_keeps_shape|].
  split; [exact two_layers_cache_rgba|].
  split; [exact SampleRuns.two_layers_alive|].
  split; [reflexivity|]. split; [vm_compute; reflexivity|].
  split; [vm_compute; reflexivity|]. split; [vm_compute; reflexivity|].
  destruct (preview_render_then_full_render 0.5%float 2 two_layers
              {| shape := [1; 2; 4]; data := replicate 8 0 |}
              {| shape := [2; 4; 4]; data := replicate 32 0 |}
              SampleRuns.sample_keeps_shape two_layers_cache_rgba
              SampleRuns.two_layers_alive)
    as (reduced & w1 & full & w2 & Hpreview & Hreduced & Hcall & Hfull & _);
    [reflexivity|vm_compute; reflexivity..|].
  exists reduced, w1, full, w2.
  split; [exact Hpreview|]. split; [exact Hreduced|].
  split; [exact Hcall|exact Hfull].
Defined.

Lemma accessors_agree_witness :
  layers_alive two_layers
  ∧ keys two_layers = (Returned ["A"; "B"], two_layers)
  ∧ items two_layers = (Returned [("A", 0%nat); ("B", 1%nat)], two_layers)
  ∧ __len__ two_layers = (Returned 2%nat, two_layers).
Proof.
  split; [exact SampleRuns.two_layers_alive|].
  destruct (accessors_agree two_layers SampleRuns.two_layers_alive)
    as (names & Hkeys & _ & Hitems & Hlen & Hnames).
  assert (names = ["A"; "B"]) as ->.
  { pose proof (f_equal fst Hkeys) as Hfst. simpl in Hfst.
    assert ((keys two_layers).1 = Returned ["A"; "B"]) as Hrun
      by (vm_compute; reflexivity).
    congruence. }
  split; [exact Hkeys|]. split; [|exact Hlen].
  rewrite Hitems. do 2 f_equal.
Defined.

Lemma render_without_layers_witness :
  _layers (self empty) = []
  ∧ 0 < _preview_level (self empty)
  ∧ entries (_cache (self empty)) !! [HTag COMPOSITION] = None
  ∧ np_zeros [2; 4; 4] = Returned {| shape := [2; 4; 4]; data := replicate 32 0 |}
  ∧ (__call__ 1%float empty).1
    = Returned {| shape := [2; 4; 4]; data := replicate 32 0 |}
  ∧ (__call__ 1%float empty).2
    = set_cache (Cache_setitem [HTag COMPOSITION]
                   {| shape := [2; 4; 4]; data := replicate 32 0 |}) empty.
Proof.
  split; [reflexivity|]. split; [reflexivity|].
  split; [vm_compute; reflexivity|]. split; [vm_compute; reflexivity|].
  destruct (render_without_layers 1%float empty
              {| shape := [2; 4; 4]; data := replicate 32 0 |})
    as (Hcall & _);
    [reflexivity|reflexivity|vm_compute; reflexivity..|].
  by rewrite Hcall.
Defined.


Lemma nested_scopes_restore_witness :
  0 < 4
  ∧ preview 4 (final (__len__);; preview_level) two_layers
    = (Returned 4, two_layers).
Proof.
  split; [reflexivity|].
  destruct (nested_scopes_restore 4 __len__ two_layers) as (_ & _ & Hreturn & _);
    [reflexivity|].
  rewrite (Hreturn 2%nat (set_preview_level 1 (set_preview_level 4 two_layers)));
    [|vm_compute; reflexivity].
  f_equal.
Defined.

Lemma layer_change_changes_key_witness :
  pop_layer "B" two_layers = (Returned 1%nat, run (pop_layer "B") two_layers)
  ∧ (get_key 0.5%float two_layers).1
    = Returned [HTag COMPOSITION; HSub "A"; HNone]
  ∧ (get_key 0.5%float (run (pop_layer "B") two_layers)).1
    = Returned [HTag COMPOSITION; HSub "A"]
  ∧ [HTag COMPOSITION; HSub "A"] ≠ [HTag COMPOSITION; HSub "A"; HNone].
Proof.
  assert (pop_layer "B" two_layers
          = (Returned 1%nat, run (pop_layer "B") two_layers)) as Hpop
    by (vm_compute; reflexivity).
  assert (get_key 0.5%float two_layers
          = (Returned [HTag COMPOSITION; HSub "A"; HNone], two_layers)) as Hkey
    by (vm_compute; reflexivity).
  assert (get_key 0.5%float (run (pop_layer "B") two_layers)
          = (Returned [HTag COMPOSITION; HSub "A"],
             run (pop_layer "B") two_layers)) as Hkey'
    by (vm_compute; reflexivity).
  split; [exact Hpop|]. split; [by rewrite Hkey|]. split; [by rewrite Hkey'|].
  exact (proj2 (proj2 (layer_change_changes_key 2%float None None 0%float 0%float
                         None true "normal" "center" "B" two_layers _ 1%nat
                         (or_intror Hpop))
                  0.5%float 0.5%float _ _ Hkey Hkey')).
Defined.

Lemma enable_alpha_matte_on_itself_witness :
  pop_layer "B" two_layers = (Returned 1%nat, run (pop_layer "B") two_layers)
  ∧ NoDup (_layers (self two_layers))
  ∧ ∃ w'',
      enable_alpha_matte "B" "B" two_layers = (Returned 1%nat, w'')
      ∧ (c ← deref 1%nat; mret (Component.alpha_matte_target c)) w''
        = (Returned (Some 1%nat), w'')
      ∧ 1%nat ∉ _layers (self w'').
Proof.
  assert (pop_layer "B" two_layers
          = (Returned 1%nat, run (pop_layer "B") two_layers)) as Hpop
    by (vm_compute; reflexivity).
  split; [exact Hpop|]. split; [exact two_layers_distinct|].
  destruct (heap two_layers !! 1%nat) as [c|] eqn:Hc;
    [|vm_compute in Hc; discriminate Hc].
  assert (Component.alpha_matte_target c = None) as Hmatte.
  { vm_compute in Hc. injection Hc as <-. reflexivity. }
  destruct (enable_alpha_matte_on_itself "B" two_layers _ 1%nat c Hpop)
    as (w'' & Henable & Hheap & Hgone & _);
    [vm_compute; reflexivity|exact Hc|exact Hmatte|exact two_layers_distinct|].
  exists w''. split; [exact Henable|]. split; [|exact Hgone].
  unfold mbind, M_bind, deref. by rewrite Hheap.
Defined.

End MoreRuns.
